(** * Divisor-PDF: the page-selection parser and the extraction pipeline

    A shallow embedding of [services/pageParser.ts] (function
    [parsePageRanges]) and of [services/pdfProcessor.ts] (the async
    generator [pdfProcessor]), together with the enumerations of
    [types.ts] they use, and the properties stated about them.

    Conventions.
    - A JavaScript string is its sequence of UTF-16 code units.
    - A JavaScript number that holds an integer is a [Z]; the results of
      [parseInt] live in [number], which adds NaN and the two infinities.
    - A [throw] is the [Throw] branch of [result]. *)

From Stdlib Require Import ZArith NArith List Bool Lia String Ascii.
From Stdlib Require Import Sorting.Sorted Sorting.Permutation.
From Stdlib Require Import QArith Lqa.
Import ListNotations.

Local Open Scope Z_scope.

(* ================================================================== *)
(** ** The JavaScript built-ins the two source files call              *)
(* ================================================================== *)

Module JS.

(** Strings: sequences of UTF-16 code units. *)
Definition codeunit := N.
Definition jsstring := list codeunit.

(** An ASCII literal as a JavaScript string. *)
Definition js (s : string) : jsstring :=
  map N_of_ascii (list_ascii_of_string s).

Definition comma : codeunit := 44%N.
Definition hyphen : codeunit := 45%N.
Definition plus : codeunit := 43%N.

Definition isEmpty (s : jsstring) : bool :=
  match s with [] => true | _ :: _ => false end.

(** WhiteSpace and LineTerminator of ECMAScript: what [trim], the leading
    blank skipping of [parseInt] and the regular-expression class [\s]
    all use. *)
Definition isWhiteSpace (c : codeunit) : bool :=
  ((9 <=? c) && (c <=? 13) || (c =? 32) || (c =? 160) || (c =? 5760)
   || (8192 <=? c) && (c <=? 8202) || (c =? 8232) || (c =? 8233)
   || (c =? 8239) || (c =? 8287) || (c =? 12288) || (c =? 65279))%N.

Definition isDigit (c : codeunit) : bool := ((48 <=? c) && (c <=? 57))%N.

Definition digitValue (c : codeunit) : Z := Z.of_N (c - 48).

Fixpoint dropWhile (p : codeunit -> bool) (s : jsstring) : jsstring :=
  match s with
  | [] => []
  | c :: s' => if p c then dropWhile p s' else s
  end.

Fixpoint takeWhile (p : codeunit -> bool) (s : jsstring) : jsstring :=
  match s with
  | [] => []
  | c :: s' => if p c then c :: takeWhile p s' else []
  end.

Definition trimStart (s : jsstring) : jsstring := dropWhile isWhiteSpace s.
Definition trimEnd (s : jsstring) : jsstring :=
  rev (dropWhile isWhiteSpace (rev s)).

(** [String.prototype.trim]. *)
Definition trim (s : jsstring) : jsstring := trimEnd (trimStart s).

(** [String.prototype.includes] with a one-unit needle. *)
Definition includes (c : codeunit) (s : jsstring) : bool :=
  existsb (N.eqb c) s.

(** [String.prototype.split] with a one-unit separator: always at least
    one piece: the empty string splits into one empty piece. *)
Fixpoint split (sep : codeunit) (s : jsstring) : list jsstring :=
  match s with
  | [] => [[]]
  | c :: s' =>
      if (c =? sep)%N then [] :: split sep s'
      else match split sep s' with
           | piece :: pieces => (c :: piece) :: pieces
           | [] => [[c]]
           end
  end.

(** The numbers [parseInt] can return. *)
Inductive number :=
| NaN
| Num (z : Z)
| PInf
| NInf.

Definition isNaN (x : number) : bool :=
  match x with NaN => true | _ => false end.

(** [x < y] on numbers; false as soon as one side is NaN. *)
Definition num_lt (x y : number) : bool :=
  match x, y with
  | NaN, _ | _, NaN => false
  | Num a, Num b => a <? b
  | NInf, NInf => false
  | NInf, _ => true
  | _, NInf => false
  | PInf, _ => false
  | Num _, PInf => true
  end.

(** [x > y]. *)
Definition num_gt (x y : number) : bool := num_lt y x.

(** The Number value of a natural number: the nearest binary64 value,
    ties to the even significand, overflowing to +Infinity. *)
Definition roundToDouble (n : Z) : number :=
  if n <? 2 ^ 53 then Num n
  else
    let e := Z.log2 n - 52 in
    let q := n / 2 ^ e in
    let r := n mod 2 ^ e in
    let half := 2 ^ (e - 1) in
    let q' := if r <? half then q
              else if half <? r then q + 1
              else if Z.even q then q else q + 1 in
    if q' * 2 ^ e <? 2 ^ 1024 then Num (q' * 2 ^ e) else PInf.

Definition negate (x : number) : number :=
  match x with
  | NaN => NaN
  | Num z => Num (- z)
  | PInf => NInf
  | NInf => PInf
  end.

Definition digitsValue (ds : jsstring) : Z :=
  fold_left (fun acc d => 10 * acc + digitValue d) ds 0.

(** [parseInt(s, 10)]: skip the leading blanks, read an optional sign,
    then the longest run of decimal digits; NaN when that run is empty.
    Whatever follows the digits is ignored.  The digits are read exactly
    and the integer they spell is rounded once (the standard also lets an
    engine read the digits after the twentieth as zeros).  A result of -0
    is [Num 0]. *)
Definition parseInt (s : jsstring) : number :=
  let s1 := trimStart s in
  let '(negative, s2) :=
    match s1 with
    | c :: rest =>
        if (c =? hyphen)%N then (true, rest)
        else if (c =? plus)%N then (false, rest)
        else (false, s1)
    | [] => (false, s1)
    end in
  match takeWhile isDigit s2 with
  | [] => NaN
  | ds => let x := roundToDouble (digitsValue ds) in
          if negative then negate x else x
  end.

(** [Set<number>], restricted to integers: the elements in insertion
    order, each once. *)
Definition NumSet := list Z.

Definition set_has (z : Z) (s : NumSet) : bool := existsb (Z.eqb z) s.

Definition set_add (z : Z) (s : NumSet) : NumSet :=
  if set_has z s then s else s ++ [z].

Definition set_size (s : NumSet) : Z := Z.of_nat (List.length s).

(** [Array.from(set)]: the elements in insertion order. *)
Definition Array_from (s : NumSet) : list Z := s.

(** [Array.prototype.sort(cmp)]: [a] goes before [b] when
    [cmp a b <= 0].  The order of the result is fixed by the comparison
    as soon as that is a total order, here by insertion. *)
Fixpoint sort_insert (cmp : Z -> Z -> Z) (x : Z) (l : list Z) : list Z :=
  match l with
  | [] => [x]
  | y :: l' => if cmp x y <=? 0 then x :: l else y :: sort_insert cmp x l'
  end.

Definition sort (cmp : Z -> Z -> Z) (l : list Z) : list Z :=
  fold_right (sort_insert cmp) [] l.

End JS.

Import JS.

(* ================================================================== *)
(** ** types.ts                                                        *)
(* ================================================================== *)

Inductive ProcessStage := QUEUED | ANALYZING | SPLITTING | DONE.

Inductive PageStatus := PROCESSING | OK | ERROR.

(** The messages of the [Error] objects the two files throw. *)
Inductive error :=
| error_pageSelection_empty
| error_pageSelection_invalidChars
| error_pageSelection_invalidRangeFormat
| error_pageSelection_invalidRangeOrder
| error_pageSelection_invalidNumber
| error_pageSelection_outOfBounds
| error_pdf_load.

Inductive result (A : Type) :=
| Return (a : A)
| Throw (e : error).
Arguments Return {A} a.
Arguments Throw {A} e.

(* ================================================================== *)
(** ** services/pageParser.ts                                          *)
(* ================================================================== *)

Module PageParser.

(** [/^[0-9,\-\s]+$/.test(selection)] *)
Definition allowedChar (c : codeunit) : bool :=
  isDigit c || (c =? comma)%N || (c =? hyphen)%N || isWhiteSpace c.

Definition regexTest (selection : jsstring) : bool :=
  negb (isEmpty selection) && forallb allowedChar selection.

(** [for (let i = start; i <= end; i++) pageNumbers.add(i)], counted in
    [Z].  The source counts in Number: [i++] is exact as long as [i + 1]
    is at most 2^53, and leaves 2^53 where it is ([round_tie_down] below),
    so that the source's loop does not end once [end] reaches 2^53.  The
    two agree for [end < 2^53], that is for every [totalPages] below 2^53,
    far above any page count; what is stated of a token that the guards
    let through carries that bound.  The guards before the loop leave only
    integer bounds ([guards_finite] below), so the second branch of
    [addRange] is never taken. *)
Definition pagesBetween (s e : Z) : list Z :=
  map (fun k => s + Z.of_nat k) (seq 0 (Z.to_nat (e - s + 1))).

Definition addRange (start end_ : number) (pageNumbers : NumSet) : NumSet :=
  match start, end_ with
  | Num s, Num e => fold_left (fun acc i => set_add i acc) (pagesBetween s e) pageNumbers
  | _, _ => pageNumbers
  end.

(** The body of [for (const part of parts)].  In the branch of a single
    page the guards leave only an integer ([single_guard_finite] below):
    the last case of the final [match] is never taken. *)
Definition processPart (totalPages : Z) (pageNumbers : NumSet)
    (part : jsstring) : result NumSet :=
  if includes hyphen part then
    let range := split hyphen part in
    if negb (List.length range =? 2)%nat
       || isEmpty (trim (nth 0 range []))
       || isEmpty (trim (nth 1 range []))
    then Throw error_pageSelection_invalidRangeFormat
    else
      let start := parseInt (nth 0 range []) in
      let end_ := parseInt (nth 1 range []) in
      if isNaN start || isNaN end_ then
        Throw error_pageSelection_invalidRangeFormat
      else if num_gt start end_ then
        Throw error_pageSelection_invalidRangeOrder
      else if num_lt start (Num 1) || num_gt end_ (Num totalPages) then
        Throw error_pageSelection_outOfBounds
      else Return (addRange start end_ pageNumbers)
  else
    let pageNum := parseInt part in
    if isNaN pageNum then Throw error_pageSelection_invalidNumber
    else if num_lt pageNum (Num 1) || num_gt pageNum (Num totalPages) then
      Throw error_pageSelection_outOfBounds
    else match pageNum with
         | Num p => Return (set_add p pageNumbers)
         | _ => Return pageNumbers
         end.

(** The whole [for ... of] loop: the first [throw] ends it. *)
Fixpoint processParts (totalPages : Z) (pageNumbers : NumSet)
    (parts : list jsstring) : result NumSet :=
  match parts with
  | [] => Return pageNumbers
  | part :: parts' =>
      match processPart totalPages pageNumbers part with
      | Throw e => Throw e
      | Return pageNumbers' => processParts totalPages pageNumbers' parts'
      end
  end.

Definition parsePageRanges (selection : jsstring) (totalPages : Z)
    : result (list Z) :=
  if isEmpty selection || isEmpty (trim selection) then
    Throw error_pageSelection_empty
  else if negb (regexTest selection) then
    Throw error_pageSelection_invalidChars
  else
    let parts := map trim (split comma selection) in
    match processParts totalPages [] parts with
    | Throw e => Throw e
    | Return pageNumbers =>
        if set_size pageNumbers =? 0 then Throw error_pageSelection_empty
        else Return (sort (fun a b => a - b) (Array_from pageNumbers))
    end.

End PageParser.

Import PageParser.

(* ================================================================== *)
(** ** services/pdfProcessor.ts                                        *)
(* ================================================================== *)

Module PdfProcessor.

(** [new Blob([pageBytes], { type: 'application/pdf' })] *)
Record Blob := mkBlob {
  blobParts : list Byte.byte;
  blobType : string
}.

(** [PageResult] of types.ts; an absent [blob] is [None]. *)
Record PageResult := mkPageResult {
  pageNumber : Z;
  finalSize : Z;
  status : PageStatus;
  blob : option Blob
}.

(** The argument of [onProgress]; [overallProgress] is a fraction, an
    absent [totalPages] is [None]. *)
Record ProgressUpdate := mkProgressUpdate {
  stage : ProcessStage;
  overallProgress : Q;
  processedPages : Z;
  totalPages : option Z
}.

(** What a consumer that drains the generator observes, in order: the calls
    of [onProgress] and the values yielded. *)
Inductive event :=
| Progress (u : ProgressUpdate)
| Yield (r : PageResult).

(** A generator body: the events so far, and how it ended. *)
Definition Gen (A : Type) : Type := list event * result A.

Definition ret {A} (a : A) : Gen A := ([], Return a).

Definition bind {A B} (m : Gen A) (f : A -> Gen B) : Gen B :=
  match m with
  | (es, Throw e) => (es, Throw e)
  | (es, Return a) => let '(es', r) := f a in (es ++ es', r)
  end.

Definition onProgress (u : ProgressUpdate) : Gen unit := ([Progress u], Return tt).
Definition yield (r : PageResult) : Gen unit := ([Yield r], Return tt).
Definition throw {A} (e : error) : Gen A := ([], Throw e).
Definition lift {A} (r : result A) : Gen A := ([], r).

Notation "x <- m ;; k" := (bind m (fun x => k))
  (at level 61, m at next level, right associativity).
Notation "m ;;; k" := (bind m (fun _ => k))
  (at level 61, right associativity).

Definition yielded (es : list event) : list PageResult :=
  flat_map (fun ev => match ev with Yield r => [r] | Progress _ => [] end) es.

Definition reported (es : list event) : list ProgressUpdate :=
  flat_map (fun ev => match ev with Progress u => [u] | Yield _ => [] end) es.

(** The locals of one turn of the page loop. *)
Record PageLocals := mkPageLocals {
  l_finalBlob : option Blob;
  l_status : PageStatus;
  l_finalSize : Z
}.

(** pdf-lib, as an opaque capability; a rejected promise is [None]. *)
Class PdfLib := {
  ArrayBuffer : Type;
  PDFDocument : Type;
  PDFPage : Type;
  load : ArrayBuffer -> option PDFDocument;
  getPageCount : PDFDocument -> Z;
  create : option PDFDocument;
  copyPages : PDFDocument -> PDFDocument -> list Z -> option (list PDFPage);
  addPage : PDFDocument -> option PDFPage -> option PDFDocument;
  save : PDFDocument -> option (list Byte.byte)
}.

(** Number arithmetic on fractions: every operation returns the binary64
    value nearest to its exact result.  Rounding to nearest keeps the order
    and leaves the integers up to 100 as they are. *)
Class Binary64 := {
  round64 : Q -> Q;
  round64_monotone : forall x y : Q, (x <= y)%Q -> (round64 x <= round64 y)%Q;
  round64_integer :
    forall n : Z, 0 <= n <= 100 -> (round64 (inject_Z n) == inject_Z n)%Q
}.

Section Pipeline.

Context {pdflib : PdfLib} {binary64 : Binary64}.

(** [extractPage] of pageParser.ts. *)
Definition extractPage (sourcePdfDoc : PDFDocument) (pageIndex : Z)
    : option PDFDocument :=
  match create with
  | None => None
  | Some newPdfDoc =>
      match copyPages newPdfDoc sourcePdfDoc [pageIndex] with
      | None => None
      | Some copied => addPage newPdfDoc (hd_error copied)
      end
  end.

(** The [try] block of the page loop; [None] when something in it throws. *)
Definition tryBlock (sourcePdfDoc : PDFDocument) (pageIndex : Z)
    (st : PageLocals) : option PageLocals :=
  match extractPage sourcePdfDoc pageIndex with
  | None => None
  | Some singlePageDoc =>
      match save singlePageDoc with
      | None => None
      | Some pageBytes =>
          Some {| l_finalSize := Z.of_nat (List.length pageBytes);
                  l_finalBlob := Some (mkBlob pageBytes "application/pdf");
                  l_status := OK |}
      end
  end.

(** The [catch] block. *)
Definition catchBlock (st : PageLocals) : PageLocals :=
  {| l_status := ERROR; l_finalSize := 0; l_finalBlob := None |}.

Definition pageResult (sourcePdfDoc : PDFDocument) (pageIndex : Z) : PageResult :=
  let st0 := {| l_finalBlob := None; l_status := PROCESSING; l_finalSize := 0 |} in
  let st := match tryBlock sourcePdfDoc pageIndex st0 with
            | Some st' => st'
            | None => catchBlock st0
            end in
  {| pageNumber := pageIndex + 1;
     finalSize := l_finalSize st;
     status := l_status st;
     blob := l_finalBlob st |}.

(** [10 + 90 * ((i + 1) / totalPagesToProcess)] *)
Definition progressAfter (i totalPagesToProcess : Z) : Q :=
  round64 (10 + round64 (90 * round64 (inject_Z (i + 1) / inject_Z totalPagesToProcess))).

(** [for (let i = 0; i < totalPagesToProcess; i++)], from turn [i] on;
    [rest] is what is left of [pageIndicesToProcess] at position [i]. *)
Fixpoint pageLoop (sourcePdfDoc : PDFDocument) (totalPagesToProcess : Z)
    (i : Z) (rest : list Z) : Gen unit :=
  match rest with
  | [] => ret tt
  | pageIndex :: rest' =>
      let result := pageResult sourcePdfDoc pageIndex in
      onProgress {| stage := SPLITTING;
                    overallProgress := progressAfter i totalPagesToProcess;
                    processedPages := i + 1;
                    totalPages := None |} ;;;
      yield result ;;;
      pageLoop sourcePdfDoc totalPagesToProcess (i + 1) rest'
  end.

(** [Array.from({ length: n }, (_, i) => i)] *)
Definition indicesUpTo (n : Z) : list Z :=
  map Z.of_nat (seq 0 (Z.to_nat n)).

(** The target indices: [if (pagesToExtract) ... else ...].  An absent
    argument and the empty string are both falsy. *)
Definition pageIndicesToProcess (totalPagesInDoc : Z)
    (pagesToExtract : option jsstring) : result (list Z) :=
  match pagesToExtract with
  | Some (c :: s) =>
      match parsePageRanges (c :: s) totalPagesInDoc with
      | Throw e => Throw e
      | Return pages => Return (map (fun p => p - 1) pages)
      end
  | Some [] | None => Return (indicesUpTo totalPagesInDoc)
  end.

Definition pdfProcessor (fileBuffer : ArrayBuffer)
    (pagesToExtract : option jsstring) : Gen unit :=
  onProgress {| stage := ANALYZING; overallProgress := 5;
                processedPages := 0; totalPages := None |} ;;;
  sourcePdfDoc <- match load fileBuffer with
                  | Some d => ret d
                  | None => throw error_pdf_load
                  end ;;
  let totalPagesInDoc := getPageCount sourcePdfDoc in
  indices <- lift (pageIndicesToProcess totalPagesInDoc pagesToExtract) ;;
  let totalPagesToProcess := Z.of_nat (List.length indices) in
  onProgress {| stage := SPLITTING; overallProgress := 10;
                processedPages := 0;
                totalPages := Some totalPagesToProcess |} ;;;
  pageLoop sourcePdfDoc totalPagesToProcess 0 indices ;;;
  onProgress {| stage := DONE; overallProgress := 100;
                processedPages := totalPagesToProcess; totalPages := None |}.

End Pipeline.

End PdfProcessor.

(* ================================================================== *)
(** ** A small instance of the capabilities, to run the pipeline on    *)
(* ================================================================== *)

Module Sample.

(** A document is the list of its pages; a page is its content, or [None]
    when it cannot be copied.  A file buffer is a document, or [None] when
    its bytes are not a PDF. *)
Definition Page := option (list Byte.byte).
Definition Doc := list Page.

Definition content (p : Page) : list Byte.byte :=
  match p with Some b => b | None => [] end.

Fixpoint copyAll (src : Doc) (indices : list Z) : option (list (list Byte.byte)) :=
  match indices with
  | [] => Some []
  | i :: rest =>
      if i <? 0 then None
      else match nth_error src (Z.to_nat i), copyAll src rest with
           | Some (Some b), Some bs => Some (b :: bs)
           | _, _ => None
           end
  end.

Definition pdflib : PdfProcessor.PdfLib :=
  {| PdfProcessor.ArrayBuffer := option Doc;
     PdfProcessor.PDFDocument := Doc;
     PdfProcessor.PDFPage := list Byte.byte;
     PdfProcessor.load := fun buffer => buffer;
     PdfProcessor.getPageCount := fun d => Z.of_nat (List.length d);
     PdfProcessor.create := Some [];
     PdfProcessor.copyPages := fun _ src indices => copyAll src indices;
     PdfProcessor.addPage := fun d p => Some (d ++ [Some (content p)]);
     PdfProcessor.save := fun d => Some (List.concat (map content d)) |}.

(** Exact arithmetic: nothing to round. *)
Definition exact : PdfProcessor.Binary64.
Proof.
  refine {| PdfProcessor.round64 := fun q => q |}.
  - intros x y H. exact H.
  - intros n _. apply Qeq_refl.
Defined.

Definition onePage : Doc := [Some [Byte.x25]].
Definition twoPages : Doc := [Some [Byte.x25; Byte.x50]; Some [Byte.x44]].
Definition threePages : Doc :=
  [Some [Byte.x25]; None; Some [Byte.x50; Byte.x44; Byte.x46]].
Definition noPages : Doc := [].

Definition run (buffer : option Doc) (pagesToExtract : option jsstring)
    : PdfProcessor.Gen unit :=
  @PdfProcessor.pdfProcessor pdflib exact buffer pagesToExtract.

End Sample.

Import PdfProcessor.

(* ================================================================== *)
(** ** Vocabulary of the statements                                    *)
(* ================================================================== *)

(** [part] splits around its hyphen into exactly two pieces, neither of
    them blank, and both parse as integers: [start] and [end_]. *)
Definition rangeOf (part : jsstring) (start end_ : number) : Prop :=
  exists a b,
    split hyphen part = [a; b]
    /\ trim a <> [] /\ trim b <> []
    /\ parseInt a = start /\ parseInt b = end_
    /\ start <> NaN /\ end_ <> NaN.

(** The copy or the serialization of the page at [pageIndex] fails. *)
Definition copyOrSerializeFails {pdflib : PdfLib}
    (sourcePdfDoc : PDFDocument) (pageIndex : Z) : Prop :=
  extractPage sourcePdfDoc pageIndex = None
  \/ exists singlePageDoc,
       extractPage sourcePdfDoc pageIndex = Some singlePageDoc
       /\ save singlePageDoc = None.

(** A request-level failure of kind [e]: the bytes do not load, or a
    selection string that is not the empty string does not parse. *)
Inductive requestFails {pdflib : PdfLib} (fileBuffer : ArrayBuffer)
    (pagesToExtract : option jsstring) : error -> Prop :=
| load_fails :
    load fileBuffer = None ->
    requestFails fileBuffer pagesToExtract error_pdf_load
| selection_fails (sourcePdfDoc : PDFDocument) (selection : jsstring) (e : error) :
    load fileBuffer = Some sourcePdfDoc ->
    pagesToExtract = Some selection ->
    selection <> [] ->
    parsePageRanges selection (getPageCount sourcePdfDoc) = Throw e ->
    requestFails fileBuffer pagesToExtract e.

(** The three snapshots outside the page loop, and the one inside. *)
Definition analyzingSnapshot : ProgressUpdate :=
  {| stage := ANALYZING; overallProgress := 5; processedPages := 0;
     totalPages := None |}.

Definition splittingSnapshot (targets : Z) : ProgressUpdate :=
  {| stage := SPLITTING; overallProgress := 10; processedPages := 0;
     totalPages := Some targets |}.

Definition doneSnapshot (targets : Z) : ProgressUpdate :=
  {| stage := DONE; overallProgress := 100; processedPages := targets;
     totalPages := None |}.

(** The tokens of a selection: [selection.split(',').map(part => part.trim())]. *)
Definition tokens (selection : jsstring) : list jsstring :=
  map trim (split comma selection).

(** Page [p] is named by [part]: a token without hyphen that reads as [p],
    or a token [a-b] whose two pieces read as integers around [p]. *)
Definition covers (part : jsstring) (p : Z) : Prop :=
  (includes hyphen part = false /\ parseInt part = Num p)
  \/ (includes hyphen part = true
      /\ exists a b s e,
           split hyphen part = [a; b]
           /\ parseInt a = Num s /\ parseInt b = Num e /\ s <= p <= e).

(* ================================================================== *)
(** ** context/LocalizationContext.tsx                                 *)
(* ================================================================== *)

Module Localization.

(** [===] on strings. *)
Definition sameString (x y : jsstring) : bool :=
  if list_eq_dec N.eq_dec x y then true else false.

(** [Array.prototype.includes] on an array of strings. *)
Definition arrayIncludes (l : list jsstring) (x : jsstring) : bool :=
  existsb (sameString x) l.

Definition supportedLanguages : list jsstring := [js "en"; js "pt"; js "es"].

(** [getInitialLanguage], over what it reads: the item [language] of the
    local storage ([None] for [null]) and [navigator.language]. *)
Definition getInitialLanguage (savedLang : option jsstring)
    (navigatorLanguage : jsstring) : jsstring :=
  let fromBrowser :=
    let browserLang := nth 0 (split hyphen navigatorLanguage) [] in
    if arrayIncludes supportedLanguages browserLang then browserLang
    else js "en" in
  match savedLang with
  | Some saved =>
      if negb (isEmpty saved) && arrayIncludes supportedLanguages saved
      then saved else fromBrowser
  | None => fromBrowser
  end.

End Localization.

(* ================================================================== *)
(** ** App.tsx: the consumer of the generator                          *)
(* ================================================================== *)

Module App.

(** [tempResults.sort((a, b) => a.pageNumber - b.pageNumber)]; the sort of
    an array is stable. *)
Fixpoint insertResult (x : PageResult) (l : list PageResult) : list PageResult :=
  match l with
  | [] => [x]
  | y :: l' =>
      if pageNumber x - pageNumber y <=? 0 then x :: l
      else y :: insertResult x l'
  end.

Definition sortResults (l : list PageResult) : list PageResult :=
  fold_right insertResult [] l.

(** The body of [for await (const result of processor)] in
    [handleStartProcessing]: push, sort, publish. *)
Definition pushResult (tempResults : list PageResult) (result : PageResult)
    : list PageResult :=
  sortResults (tempResults ++ [result]).

(** [tempResults] once the generator has yielded [outcomes]. *)
Definition collectResults (outcomes : list PageResult) : list PageResult :=
  fold_left pushResult outcomes [].

(** [ExtractionMode] of types.ts. *)
Inductive ExtractionMode := ALL | SPECIFIC.

(** The guards of [handleStartProcessing], for a file that is there: [None]
    when the handler returns before it starts the pipeline, otherwise the
    third argument it gives to [pdfProcessor].  [pageSelectionError] is a
    message or [null]; [totalPages] is the page count the component
    holds. *)
Definition startArgument (extractionMode : ExtractionMode)
    (pageSelectionError : option jsstring) (pageSelection : jsstring)
    (totalPages : Z) : option (option jsstring) :=
  match extractionMode with
  | SPECIFIC =>
      if match pageSelectionError with Some (_ :: _) => true | _ => false end
         || isEmpty (trim pageSelection)
      then None
      else match parsePageRanges pageSelection totalPages with
           | Throw _ => None
           | Return _ => Some (Some pageSelection)
           end
  | ALL => Some None
  end.

(** [results.filter(r => r.blob)] of [handleDownloadZip]. *)
Definition validResults (results : list PageResult) : list PageResult :=
  filter (fun r => match blob r with Some _ => true | None => false end) results.

End App.

(* ================================================================== *)
(** ** The range parser: examples                                      *)
(* ================================================================== *)

(** The examples of the specification. *)
Example parse_list_and_range :
  parsePageRanges (js "1,3-5,8") 10 = Return [1; 3; 4; 5; 8].
Proof. vm_compute. reflexivity. Qed.

Example parse_dedup :
  parsePageRanges (js "2,2,1-2") 5 = Return [1; 2].
Proof. vm_compute. reflexivity. Qed.

Example parse_empty :
  parsePageRanges [] 3 = Throw error_pageSelection_empty
  /\ parsePageRanges (js "   ") 3 = Throw error_pageSelection_empty.
Proof. split; vm_compute; reflexivity. Qed.

Example parse_order :
  parsePageRanges (js "5-2") 10 = Throw error_pageSelection_invalidRangeOrder.
Proof. vm_compute. reflexivity. Qed.

Example parse_bounds :
  parsePageRanges (js "1-20") 10 = Throw error_pageSelection_outOfBounds.
Proof. vm_compute. reflexivity. Qed.

Example parse_chars :
  parsePageRanges (js "a,b") 10 = Throw error_pageSelection_invalidChars.
Proof. vm_compute. reflexivity. Qed.

Example parse_half_ranges :
  parsePageRanges (js "3-") 10 = Throw error_pageSelection_invalidRangeFormat
  /\ parsePageRanges (js "-3") 10 = Throw error_pageSelection_invalidRangeFormat.
Proof. split; vm_compute; reflexivity. Qed.

Example round_exact : roundToDouble (2 ^ 53 - 1) = Num 9007199254740991.
Proof. vm_compute. reflexivity. Qed.

Example round_tie_down : roundToDouble (2 ^ 53 + 1) = Num 9007199254740992.
Proof. vm_compute. reflexivity. Qed.

Example round_tie_up : roundToDouble (2 ^ 53 + 3) = Num 9007199254740996.
Proof. vm_compute. reflexivity. Qed.

Example round_overflow : roundToDouble (10 ^ 309) = PInf.
Proof. vm_compute. reflexivity. Qed.

Example run_three_pages :
  map (fun r => (pageNumber r, status r, finalSize r))
      (yielded (fst (Sample.run (Some Sample.threePages) None)))
  = [(1, OK, 1); (2, ERROR, 0); (3, OK, 3)].
Proof. vm_compute. reflexivity. Qed.

Example run_selection :
  map (fun r => (pageNumber r, status r))
      (yielded (fst (Sample.run (Some Sample.threePages) (Some (js "3, 1-2")))))
  = [(1, OK); (2, ERROR); (3, OK)].
Proof. vm_compute. reflexivity. Qed.

(* ================================================================== *)
(** ** The range parser: properties                                    *)
(* ================================================================== *)

Section SetFacts.

Lemma set_has_In (z : Z) (s : NumSet) : set_has z s = true <-> In z s.
Proof.
  unfold set_has. rewrite existsb_exists. split.
  - intros [x [Hin Heq]]. apply Z.eqb_eq in Heq. now subst.
  - intros Hin. exists z. split; [assumption | apply Z.eqb_refl].
Qed.

Lemma set_add_In (x z : Z) (s : NumSet) :
  In x (set_add z s) <-> In x s \/ x = z.
Proof.
  unfold set_add. destruct (set_has z s) eqn:Hhas.
  - apply set_has_In in Hhas. split; [tauto | intros [H | ->]; assumption].
  - rewrite in_app_iff. simpl. intuition congruence.
Qed.

Lemma set_add_NoDup (z : Z) (s : NumSet) : NoDup s -> NoDup (set_add z s).
Proof.
  intros Hs. unfold set_add. destruct (set_has z s) eqn:Hhas; [assumption |].
  assert (Hnot : ~ In z s).
  { intros Hin. apply set_has_In in Hin. congruence. }
  apply Permutation_NoDup with (l := z :: s).
  - apply Permutation_cons_append.
  - now constructor.
Qed.

Lemma add_all_In (x : Z) (l : list Z) (s : NumSet) :
  In x (fold_left (fun acc i => set_add i acc) l s) <-> In x s \/ In x l.
Proof.
  revert s. induction l as [| i l IH]; intros s; simpl.
  - tauto.
  - rewrite IH, set_add_In. intuition congruence.
Qed.

Lemma add_all_NoDup (l : list Z) (s : NumSet) :
  NoDup s -> NoDup (fold_left (fun acc i => set_add i acc) l s).
Proof.
  revert s. induction l as [| i l IH]; intros s Hs; simpl.
  - assumption.
  - apply IH, set_add_NoDup, Hs.
Qed.

Lemma pagesBetween_In (x s e : Z) : In x (pagesBetween s e) <-> s <= x <= e.
Proof.
  unfold pagesBetween. rewrite in_map_iff. split.
  - intros [k [<- Hk]]. apply in_seq in Hk. lia.
  - intros H. exists (Z.to_nat (x - s)). split; [lia | apply in_seq; lia].
Qed.

End SetFacts.

Section SortFacts.

Lemma sort_insert_perm (x : Z) (l : list Z) :
  Permutation (sort_insert (fun a b => a - b) x l) (x :: l).
Proof.
  induction l as [| y l IH]; simpl.
  - apply Permutation_refl.
  - destruct (x - y <=? 0).
    + apply Permutation_refl.
    + eapply perm_trans; [apply perm_skip, IH | apply perm_swap].
Qed.

Lemma sort_perm (l : list Z) : Permutation (sort (fun a b => a - b) l) l.
Proof.
  induction l as [| x l IH]; simpl.
  - constructor.
  - eapply perm_trans; [apply sort_insert_perm | apply perm_skip, IH].
Qed.

Lemma sort_insert_sorted (x : Z) (l : list Z) :
  StronglySorted Z.le l -> StronglySorted Z.le (sort_insert (fun a b => a - b) x l).
Proof.
  induction l as [| y l IH]; intros Hl; simpl.
  - repeat constructor.
  - inversion Hl as [| ? ? Hl' Hall]; subst.
    destruct (x - y <=? 0) eqn:Hcmp.
    + apply Z.leb_le in Hcmp. constructor; [assumption |].
      constructor; [lia |].
      eapply Forall_impl; [| exact Hall]. simpl. intros; lia.
    + apply Z.leb_gt in Hcmp. constructor; [now apply IH |].
      eapply Permutation_Forall; [apply Permutation_sym, sort_insert_perm |].
      constructor; [lia | assumption].
Qed.

Lemma sort_sorted (l : list Z) : StronglySorted Z.le (sort (fun a b => a - b) l).
Proof.
  induction l as [| x l IH]; simpl.
  - constructor.
  - now apply sort_insert_sorted.
Qed.

Lemma sorted_NoDup_strict (l : list Z) :
  StronglySorted Z.le l -> NoDup l -> StronglySorted Z.lt l.
Proof.
  induction 1 as [| x l Hl IH Hall]; intros Hnd.
  - constructor.
  - inversion Hnd as [| ? ? Hnotin Hnd']; subst.
    constructor; [now apply IH |].
    rewrite Forall_forall in *. intros y Hy.
    specialize (Hall y Hy).
    assert (x <> y) by (intros ->; contradiction). lia.
Qed.

End SortFacts.

Section ParserFacts.

Variable totalPages : Z.

(** Once the four guards of a range token have let it through, both
    bounds are integers, in order and inside the document. *)
Lemma guards_finite (start end_ : number) :
  isNaN start || isNaN end_ = false ->
  num_gt start end_ = false ->
  num_lt start (Num 1) || num_gt end_ (Num totalPages) = false ->
  exists s e, start = Num s /\ end_ = Num e /\ 1 <= s /\ s <= e /\ e <= totalPages.
Proof.
  unfold num_gt. intros Hnan Hord Hbnd.
  apply orb_false_iff in Hnan as [Hs He], Hbnd as [Hlo Hhi].
  destruct start as [| s | |], end_ as [| e | |]; simpl in *; try discriminate.
  exists s, e. repeat split; lia.
Qed.

Lemma single_guard_finite (pageNum : number) :
  isNaN pageNum = false ->
  num_lt pageNum (Num 1) || num_gt pageNum (Num totalPages) = false ->
  exists p, pageNum = Num p /\ 1 <= p <= totalPages.
Proof.
  unfold num_gt. intros Hnan Hbnd.
  apply orb_false_iff in Hbnd as [Hlo Hhi].
  destruct pageNum as [| p | |]; simpl in *; try discriminate.
  exists p. split; [reflexivity | lia].
Qed.

(** A token that is accepted adds the pages of one non-empty interval of
    the document, and nothing else. *)
Lemma processPart_Return (pageNumbers pageNumbers' : NumSet) (part : jsstring) :
  processPart totalPages pageNumbers part = Return pageNumbers' ->
  exists s e, 1 <= s /\ s <= e /\ e <= totalPages
    /\ pageNumbers' = fold_left (fun acc i => set_add i acc) (pagesBetween s e) pageNumbers.
Proof.
  unfold processPart.
  destruct (includes hyphen part).
  - destruct (negb _ || _ || _); [discriminate |].
    destruct (isNaN _ || isNaN _) eqn:Hnan; [discriminate |].
    destruct (num_gt (parseInt _) (parseInt _)) eqn:Hord; [discriminate |].
    destruct (num_lt _ _ || num_gt _ _) eqn:Hbnd; [discriminate |].
    destruct (guards_finite _ _ Hnan Hord Hbnd) as (s & e & Hs & He & H1 & H2 & H3).
    rewrite Hs, He. simpl. intros [= <-]. exists s, e. repeat split; assumption.
  - destruct (isNaN _) eqn:Hnan; [discriminate |].
    destruct (num_lt _ _ || num_gt _ _) eqn:Hbnd; [discriminate |].
    destruct (single_guard_finite _ Hnan Hbnd) as (p & Hp & Hrange).
    rewrite Hp. intros [= <-]. exists p, p. repeat split; try lia.
    unfold pagesBetween. replace (p - p + 1) with 1 by lia. simpl.
    now rewrite Z.add_0_r.
Qed.

Lemma processPart_invariant (pageNumbers pageNumbers' : NumSet) (part : jsstring) :
  processPart totalPages pageNumbers part = Return pageNumbers' ->
  NoDup pageNumbers /\ Forall (fun p => 1 <= p <= totalPages) pageNumbers ->
  NoDup pageNumbers' /\ Forall (fun p => 1 <= p <= totalPages) pageNumbers'.
Proof.
  intros Hret [Hnd Hin].
  destruct (processPart_Return _ _ _ Hret) as (s & e & H1 & H2 & H3 & ->).
  split; [now apply add_all_NoDup |].
  rewrite Forall_forall in *. intros x Hx.
  apply add_all_In in Hx as [Hx | Hx]; [now apply Hin |].
  apply pagesBetween_In in Hx. lia.
Qed.

Lemma processPart_nonempty (pageNumbers pageNumbers' : NumSet) (part : jsstring) :
  processPart totalPages pageNumbers part = Return pageNumbers' ->
  pageNumbers' <> [] /\ incl pageNumbers pageNumbers'.
Proof.
  intros Hret.
  destruct (processPart_Return _ _ _ Hret) as (s & e & H1 & H2 & H3 & ->).
  split.
  - assert (Hs : In s (fold_left (fun acc i => set_add i acc) (pagesBetween s e) pageNumbers)).
    { apply add_all_In. right. apply pagesBetween_In. lia. }
    intros Heq. rewrite Heq in Hs. exact Hs.
  - intros x Hx. apply add_all_In. now left.
Qed.

Lemma processParts_invariant (parts : list jsstring) :
  forall pageNumbers pageNumbers',
  processParts totalPages pageNumbers parts = Return pageNumbers' ->
  NoDup pageNumbers /\ Forall (fun p => 1 <= p <= totalPages) pageNumbers ->
  NoDup pageNumbers' /\ Forall (fun p => 1 <= p <= totalPages) pageNumbers'.
Proof.
  induction parts as [| part parts IH]; intros s s' Hret Hinv; simpl in Hret.
  - now injection Hret as <-.
  - destruct (processPart totalPages s part) as [s1 | err] eqn:Hpart; [| discriminate].
    eapply IH; [exact Hret |]. eapply processPart_invariant; eassumption.
Qed.

Lemma processParts_incl (parts : list jsstring) :
  forall pageNumbers pageNumbers',
  processParts totalPages pageNumbers parts = Return pageNumbers' ->
  incl pageNumbers pageNumbers'.
Proof.
  induction parts as [| part parts IH]; intros s s' Hret; simpl in Hret.
  - injection Hret as <-. apply incl_refl.
  - destruct (processPart totalPages s part) as [s1 | err] eqn:Hpart; [| discriminate].
    apply processPart_nonempty in Hpart as [_ Hincl].
    eapply incl_tran; [exact Hincl | now apply IH].
Qed.

End ParserFacts.

Lemma split_nonempty (sep : codeunit) (s : jsstring) : split sep s <> [].
Proof.
  destruct s as [| c s]; simpl; [discriminate |].
  destruct (c =? sep)%N; [discriminate |].
  destruct (split sep s); discriminate.
Qed.

(** C1.  Whenever [parsePageRanges] returns, for any selection string and
    any page count of at least 1, the sequence it returns is strictly
    ascending, has no duplicate element, and every element lies between 1
    and [totalPages]. *)
Theorem parsePageRanges_ascending_unique_bounded
    (selection : jsstring) (totalPages : Z) (pages : list Z) :
  1 <= totalPages ->
  parsePageRanges selection totalPages = Return pages ->
  StronglySorted Z.lt pages
  /\ NoDup pages
  /\ Forall (fun p => 1 <= p <= totalPages) pages.
Proof.
  intros _. unfold parsePageRanges.
  destruct (isEmpty selection || isEmpty (trim selection)); [discriminate |].
  destruct (negb (regexTest selection)); [discriminate |].
  destruct (processParts totalPages [] (map trim (split comma selection)))
    as [pageNumbers | err] eqn:Hloop; [| discriminate].
  destruct (set_size pageNumbers =? 0); [discriminate |].
  intros [= <-]. unfold Array_from.
  destruct (processParts_invariant totalPages _ _ _ Hloop) as [Hnd Hin].
  { split; constructor. }
  assert (Hperm := sort_perm pageNumbers).
  assert (Hnd' : NoDup (sort (fun a b => a - b) pageNumbers)).
  { eapply Permutation_NoDup; [apply Permutation_sym, Hperm | exact Hnd]. }
  split; [| split].
  - apply sorted_NoDup_strict; [apply sort_sorted | exact Hnd'].
  - exact Hnd'.
  - eapply Permutation_Forall; [apply Permutation_sym, Hperm | exact Hin].
Qed.

Lemma parsePageRanges_ascending_unique_bounded_witness :
  1 <= 10
  /\ parsePageRanges (js "8, 3-5,1,4") 10 = Return [1; 3; 4; 5; 8]
  /\ StronglySorted Z.lt [1; 3; 4; 5; 8]
  /\ NoDup [1; 3; 4; 5; 8]
  /\ Forall (fun p => 1 <= p <= 10) [1; 3; 4; 5; 8].
Proof.
  split; [lia |]. split; [vm_compute; reflexivity |].
  apply (parsePageRanges_ascending_unique_bounded (js "8, 3-5,1,4") 10);
    [lia | vm_compute; reflexivity].
Defined.

(** The range branch of the loop body, guard by guard: what it throws,
    and what it adds to the set when it throws nothing. *)
Lemma range_branch (totalPages : Z) (pageNumbers : NumSet) (part : jsstring) :
  includes hyphen part = true ->
  ((~ exists start end_, rangeOf part start end_) ->
     processPart totalPages pageNumbers part
     = Throw error_pageSelection_invalidRangeFormat)
  /\ (forall start end_, rangeOf part start end_ ->
        (num_gt start end_ = true ->
           processPart totalPages pageNumbers part
           = Throw error_pageSelection_invalidRangeOrder)
        /\ (num_gt start end_ = false ->
            num_lt start (Num 1) = true \/ num_gt end_ (Num totalPages) = true ->
              processPart totalPages pageNumbers part
              = Throw error_pageSelection_outOfBounds)
        /\ (num_gt start end_ = false ->
            num_lt start (Num 1) = false ->
            num_gt end_ (Num totalPages) = false ->
              exists s e pageNumbers',
                start = Num s /\ end_ = Num e
                /\ processPart totalPages pageNumbers part = Return pageNumbers'
                /\ forall p, In p pageNumbers' <-> In p pageNumbers \/ s <= p <= e)).
Proof.
  intros Hhyphen. unfold processPart. rewrite Hhyphen.
  destruct (split hyphen part) as [| a [| b [| c pieces]]] eqn:Hsplit;
    try (split; [reflexivity |];
         intros start end_ (a' & b' & Hs & _); unfold rangeOf in *;
         rewrite Hsplit in Hs; discriminate).
  cbn [List.length Nat.eqb negb orb nth].
  split.
  - intros Hnone.
    destruct (isEmpty (trim a)) eqn:Ha; [reflexivity |].
    destruct (isEmpty (trim b)) eqn:Hb; [reflexivity |].
    cbn [orb].
    destruct (isNaN (parseInt a) || isNaN (parseInt b)) eqn:Hnan; [reflexivity |].
    exfalso. apply Hnone. exists (parseInt a), (parseInt b), a, b.
    apply orb_false_iff in Hnan as [Hna Hnb].
    split; [exact Hsplit |].
    split; [intros Heq; rewrite Heq in Ha; discriminate |].
    split; [intros Heq; rewrite Heq in Hb; discriminate |].
    split; [reflexivity |]. split; [reflexivity |].
    split; intros Heq; [rewrite Heq in Hna | rewrite Heq in Hnb]; discriminate.
  - intros start end_ (a' & b' & Hs & Hta & Htb & Hpa & Hpb & Hsn & Hen).
    rewrite Hsplit in Hs. injection Hs as Ea Eb. subst a' b'.
    assert (Ha : isEmpty (trim a) = false) by (destruct (trim a); simpl; congruence).
    assert (Hb : isEmpty (trim b) = false) by (destruct (trim b); simpl; congruence).
    rewrite Ha, Hb, Hpa, Hpb. cbn [orb].
    assert (Hnan : isNaN start || isNaN end_ = false).
    { destruct start, end_; simpl; congruence. }
    rewrite Hnan.
    split; [| split].
    + intros ->. reflexivity.
    + intros -> Hbnd.
      assert (Hor : num_lt start (Num 1) || num_gt end_ (Num totalPages) = true).
      { apply orb_true_iff. exact Hbnd. }
      now rewrite Hor.
    + intros Hord Hlo Hhi. rewrite Hord, Hlo, Hhi. cbn [orb].
      destruct (guards_finite totalPages start end_ Hnan Hord)
        as (s & e & -> & -> & H1 & H2 & H3).
      { rewrite Hlo, Hhi. reflexivity. }
      exists s, e, (addRange (Num s) (Num e) pageNumbers).
      repeat split; try reflexivity.
      * intros Hp. apply add_all_In in Hp. rewrite pagesBetween_In in Hp. exact Hp.
      * intros Hp. apply add_all_In. rewrite pagesBetween_In. exact Hp.
Qed.

(** C7.  The last guard of [parsePageRanges], [pageNumbers.size === 0],
    never fires: once the selection has passed the emptiness test and the
    character test and the loop over its tokens has ended without a throw,
    the accumulated set is not empty. *)
Theorem final_empty_check_unreachable
    (selection : jsstring) (totalPages : Z) (pageNumbers : NumSet) :
  isEmpty selection || isEmpty (trim selection) = false ->
  negb (regexTest selection) = false ->
  processParts totalPages [] (map trim (split comma selection)) = Return pageNumbers ->
  (set_size pageNumbers =? 0) = false.
Proof.
  intros _ _ Hloop.
  destruct (split comma selection) as [| piece pieces] eqn:Hsplit.
  - exfalso. exact (split_nonempty _ _ Hsplit).
  - simpl in Hloop.
    destruct (processPart totalPages [] (trim piece)) as [s1 | err] eqn:Hpart;
      [| discriminate].
    apply processPart_nonempty in Hpart as [Hne _].
    apply processParts_incl in Hloop.
    destruct s1 as [| x s1]; [congruence |].
    assert (Hx : In x pageNumbers) by (apply Hloop; now left).
    destruct pageNumbers; [contradiction | reflexivity].
Qed.

Lemma final_empty_check_unreachable_witness :
  isEmpty (js "2, 4-5") || isEmpty (trim (js "2, 4-5")) = false
  /\ negb (regexTest (js "2, 4-5")) = false
  /\ processParts 9 [] (map trim (split comma (js "2, 4-5"))) = Return [2; 4; 5]
  /\ (set_size [2; 4; 5] =? 0) = false.
Proof.
  split; [reflexivity |]. split; [reflexivity |]. split; [reflexivity |].
  apply (final_empty_check_unreachable (js "2, 4-5") 9 [2; 4; 5]); reflexivity.
Defined.

(** C9.  The selection ["1 2"] passes the character test; its only token
    has no hyphen and holds two digit groups separated by a blank;
    [parseInt] reads the first group and drops the rest, so that for any
    document of at least one page the parser does not throw invalidNumber
    but returns page 1 alone. *)
Theorem single_token_with_inner_blank (totalPages : Z) :
  1 <= totalPages ->
  regexTest (js "1 2") = true
  /\ map trim (split comma (js "1 2")) = [js "1 2"]
  /\ includes hyphen (js "1 2") = false
  /\ parseInt (js "1 2") = Num 1
  /\ parsePageRanges (js "1 2") totalPages = Return [1].
Proof.
  intros Htotal.
  assert (Hint : parseInt (js "1 2") = Num 1) by (vm_compute; reflexivity).
  repeat split; try (vm_compute; reflexivity).
  unfold parsePageRanges.
  change (isEmpty (js "1 2") || isEmpty (trim (js "1 2"))) with false.
  change (negb (regexTest (js "1 2"))) with false.
  change (map trim (split comma (js "1 2"))) with [js "1 2"].
  cbn [processParts]. unfold processPart.
  change (includes hyphen (js "1 2")) with false.
  rewrite Hint. cbn [isNaN]. unfold num_gt. cbn [num_lt].
  replace (1 <? 1) with false by reflexivity.
  replace (totalPages <? 1) with false by (symmetry; apply Z.ltb_ge; lia).
  reflexivity.
Qed.

Lemma single_token_with_inner_blank_witness :
  1 <= 4
  /\ regexTest (js "1 2") = true
  /\ map trim (split comma (js "1 2")) = [js "1 2"]
  /\ includes hyphen (js "1 2") = false
  /\ parseInt (js "1 2") = Num 1
  /\ parsePageRanges (js "1 2") 4 = Return [1].
Proof.
  split; [lia |]. apply (single_token_with_inner_blank 4). lia.
Defined.

(* ================================================================== *)
(** ** The extraction pipeline: properties                             *)
(* ================================================================== *)

Section PipelineFacts.

Context {pdflib : PdfLib} {binary64 : Binary64}.

Lemma yielded_app (es es' : list event) :
  yielded (es ++ es') = yielded es ++ yielded es'.
Proof. apply flat_map_app. Qed.

Lemma reported_app (es es' : list event) :
  reported (es ++ es') = reported es ++ reported es'.
Proof. apply flat_map_app. Qed.

Lemma pageLoop_cons (src : PDFDocument) (n i pageIndex : Z) (rest : list Z) :
  pageLoop src n i (pageIndex :: rest)
  = (Progress {| stage := SPLITTING; overallProgress := progressAfter i n;
                 processedPages := i + 1; totalPages := None |}
       :: Yield (pageResult src pageIndex)
       :: fst (pageLoop src n (i + 1) rest),
     snd (pageLoop src n (i + 1) rest)).
Proof.
  simpl. unfold bind, onProgress, yield.
  destruct (pageLoop src n (i + 1) rest) as [es [[] | e]]; reflexivity.
Qed.

(** The page loop never throws. *)
Lemma pageLoop_returns (src : PDFDocument) (n : Z) (rest : list Z) :
  forall i, snd (pageLoop src n i rest) = Return tt.
Proof.
  induction rest as [| pageIndex rest IH]; intros i.
  - reflexivity.
  - rewrite pageLoop_cons. apply IH.
Qed.

(** One outcome per target, in the order of the targets. *)
Lemma pageLoop_yielded (src : PDFDocument) (n : Z) (rest : list Z) :
  forall i, yielded (fst (pageLoop src n i rest)) = map (pageResult src) rest.
Proof.
  induction rest as [| pageIndex rest IH]; intros i.
  - reflexivity.
  - rewrite pageLoop_cons. simpl. now rewrite IH.
Qed.

Lemma pageLoop_reported (src : PDFDocument) (n : Z) (rest : list Z) :
  forall i,
  map overallProgress (reported (fst (pageLoop src n i rest)))
  = map (fun k => progressAfter (i + Z.of_nat k) n) (seq 0 (List.length rest)).
Proof.
  induction rest as [| pageIndex rest IH]; intros i.
  - reflexivity.
  - rewrite pageLoop_cons. simpl. rewrite IH, Z.add_0_r. f_equal.
    rewrite <- seq_shift, map_map. apply map_ext. intros k.
    f_equal. lia.
Qed.

(** The run of a request that loads and whose targets resolve. *)
Lemma pdfProcessor_completes (fileBuffer : ArrayBuffer)
    (pagesToExtract : option jsstring) (src : PDFDocument) (indices : list Z) :
  load fileBuffer = Some src ->
  pageIndicesToProcess (getPageCount src) pagesToExtract = Return indices ->
  pdfProcessor fileBuffer pagesToExtract
  = (Progress analyzingSnapshot
       :: Progress (splittingSnapshot (Z.of_nat (List.length indices)))
       :: fst (pageLoop src (Z.of_nat (List.length indices)) 0 indices)
       ++ [Progress (doneSnapshot (Z.of_nat (List.length indices)))],
     Return tt).
Proof.
  intros Hload Htargets. unfold pdfProcessor. rewrite Hload.
  unfold bind, onProgress, ret, lift. rewrite Htargets.
  assert (Hret := pageLoop_returns src (Z.of_nat (List.length indices)) indices 0).
  destruct (pageLoop src (Z.of_nat (List.length indices)) 0 indices) as [es r].
  simpl in Hret. subst r. reflexivity.
Qed.

Lemma pdfProcessor_load_fails (fileBuffer : ArrayBuffer)
    (pagesToExtract : option jsstring) :
  load fileBuffer = None ->
  pdfProcessor fileBuffer pagesToExtract
  = ([Progress analyzingSnapshot], Throw error_pdf_load).
Proof.
  intros Hload. unfold pdfProcessor. rewrite Hload. reflexivity.
Qed.

Lemma pdfProcessor_targets_fail (fileBuffer : ArrayBuffer)
    (pagesToExtract : option jsstring) (src : PDFDocument) (e : error) :
  load fileBuffer = Some src ->
  pageIndicesToProcess (getPageCount src) pagesToExtract = Throw e ->
  pdfProcessor fileBuffer pagesToExtract = ([Progress analyzingSnapshot], Throw e).
Proof.
  intros Hload Htargets. unfold pdfProcessor. rewrite Hload.
  unfold bind, onProgress, ret, lift. rewrite Htargets. reflexivity.
Qed.

Lemma pageResult_failed (src : PDFDocument) (pageIndex : Z) :
  copyOrSerializeFails src pageIndex ->
  pageResult src pageIndex
  = {| pageNumber := pageIndex + 1; finalSize := 0; status := ERROR; blob := None |}.
Proof.
  unfold pageResult, tryBlock.
  intros [Hcopy | [d [Hcopy Hsave]]]; rewrite Hcopy; [| rewrite Hsave]; reflexivity.
Qed.

Lemma pageResult_succeeded (src : PDFDocument) (pageIndex : Z)
    (singlePageDoc : PDFDocument) (pageBytes : list Byte.byte) :
  extractPage src pageIndex = Some singlePageDoc ->
  save singlePageDoc = Some pageBytes ->
  pageResult src pageIndex
  = {| pageNumber := pageIndex + 1;
       finalSize := Z.of_nat (List.length pageBytes);
       status := OK;
       blob := Some (mkBlob pageBytes "application/pdf") |}.
Proof.
  unfold pageResult, tryBlock. intros -> ->. reflexivity.
Qed.

Lemma pageResult_status (src : PDFDocument) (pageIndex : Z) :
  status (pageResult src pageIndex) = OK \/ status (pageResult src pageIndex) = ERROR.
Proof.
  unfold pageResult, tryBlock.
  destruct (extractPage src pageIndex) as [d |]; [| now right].
  destruct (save d); [now left | now right].
Qed.

Lemma indicesUpTo_length (n : Z) :
  0 <= n -> Z.of_nat (List.length (indicesUpTo n)) = n.
Proof.
  intros Hn. unfold indicesUpTo. rewrite length_map, length_seq. lia.
Qed.

Lemma indicesUpTo_pageNumbers (src : PDFDocument) (n : Z) :
  map pageNumber (map (pageResult src) (indicesUpTo n))
  = map Z.of_nat (seq 1 (Z.to_nat n)).
Proof.
  unfold indicesUpTo. rewrite <- seq_shift, !map_map.
  apply map_ext. intros k. simpl pageNumber. lia.
Qed.

End PipelineFacts.

Section PipelineClaims.

Context {pdflib : PdfLib} {binary64 : Binary64}.

(** C2.  Without a selection string, over a source document of [N >= 1]
    pages, the run ends normally, yields exactly [N] outcomes whose page
    numbers are 1, 2, ..., [N] in this order, and the last thing it emits is
    the snapshot [{stage: DONE, overallProgress: 100, processedPages: N}]. *)
Theorem no_selection_every_page (fileBuffer : ArrayBuffer)
    (src : PDFDocument) (N : Z) :
  load fileBuffer = Some src ->
  getPageCount src = N ->
  1 <= N ->
  let run := pdfProcessor fileBuffer None in
  snd run = Return tt
  /\ List.length (yielded (fst run)) = Z.to_nat N
  /\ map pageNumber (yielded (fst run)) = map Z.of_nat (seq 1 (Z.to_nat N))
  /\ exists es,
       fst run = es ++ [Progress {| stage := DONE; overallProgress := 100;
                                    processedPages := N; totalPages := None |}].
Proof.
  intros Hload Hcount HN run. subst run.
  rewrite (pdfProcessor_completes fileBuffer None src (indicesUpTo N) Hload)
    by (simpl; now rewrite Hcount).
  rewrite indicesUpTo_length by lia. cbn [fst snd].
  split; [reflexivity |].
  assert (Hy : yielded (Progress analyzingSnapshot :: Progress (splittingSnapshot N)
                 :: fst (pageLoop src N 0 (indicesUpTo N)) ++ [Progress (doneSnapshot N)])
               = map (pageResult src) (indicesUpTo N)).
  { change (yielded (fst (pageLoop src N 0 (indicesUpTo N)) ++ [Progress (doneSnapshot N)])
            = map (pageResult src) (indicesUpTo N)).
    rewrite yielded_app, pageLoop_yielded. apply app_nil_r. }
  rewrite Hy. split; [| split].
  - unfold indicesUpTo. now rewrite !length_map, length_seq.
  - apply indicesUpTo_pageNumbers.
  - exists (Progress analyzingSnapshot :: Progress (splittingSnapshot N)
            :: fst (pageLoop src N 0 (indicesUpTo N))).
    reflexivity.
Qed.

(** C3.  In a run whose request loads and whose targets resolve, the run
    ends normally and yields one outcome per target, in the order of the
    targets; the outcome of every target whose copy or serialization fails
    is [{pageNumber: index + 1, finalSize: 0, status: ERROR}] without a
    blob, whatever happens to the targets before and after it, and the
    outcome of every target that is copied and serialized is OK, with the
    bytes and their length. *)
Theorem page_failure_isolated (fileBuffer : ArrayBuffer)
    (pagesToExtract : option jsstring) (src : PDFDocument) (indices : list Z) :
  load fileBuffer = Some src ->
  pageIndicesToProcess (getPageCount src) pagesToExtract = Return indices ->
  let run := pdfProcessor fileBuffer pagesToExtract in
  snd run = Return tt
  /\ map pageNumber (yielded (fst run)) = map (fun index => index + 1) indices
  /\ (forall (k : nat) (index : Z),
       nth_error indices k = Some index ->
       copyOrSerializeFails src index ->
       nth_error (yielded (fst run)) k
       = Some {| pageNumber := index + 1; finalSize := 0;
                 status := ERROR; blob := None |})
  /\ (forall (k : nat) (index : Z) (singlePageDoc : PDFDocument)
             (pageBytes : list Byte.byte),
       nth_error indices k = Some index ->
       extractPage src index = Some singlePageDoc ->
       save singlePageDoc = Some pageBytes ->
       nth_error (yielded (fst run)) k
       = Some {| pageNumber := index + 1;
                 finalSize := Z.of_nat (List.length pageBytes);
                 status := OK;
                 blob := Some (mkBlob pageBytes "application/pdf") |}).
Proof.
  intros Hload Htargets run. subst run.
  rewrite (pdfProcessor_completes fileBuffer pagesToExtract src indices Hload Htargets).
  cbn [fst snd].
  set (n := Z.of_nat (List.length indices)).
  assert (Hy : yielded (Progress analyzingSnapshot :: Progress (splittingSnapshot n)
                 :: fst (pageLoop src n 0 indices) ++ [Progress (doneSnapshot n)])
               = map (pageResult src) indices).
  { change (yielded (fst (pageLoop src n 0 indices) ++ [Progress (doneSnapshot n)])
            = map (pageResult src) indices).
    rewrite yielded_app, pageLoop_yielded. apply app_nil_r. }
  rewrite Hy. split; [reflexivity |]. split; [| split].
  - rewrite map_map. apply map_ext. reflexivity.
  - intros k index Hk Hfails.
    rewrite nth_error_map, Hk. simpl. f_equal. now apply pageResult_failed.
  - intros k index singlePageDoc pageBytes Hk Hcopy Hsave.
    rewrite nth_error_map, Hk. simpl. f_equal.
    now apply pageResult_succeeded with (singlePageDoc := singlePageDoc).
Qed.

(** C8.  Whatever the request, every outcome the pipeline yields has status
    OK or ERROR: PROCESSING, the value the status starts from at each turn
    of the page loop, is never the status of a yielded outcome. *)
Theorem yielded_status_terminal (fileBuffer : ArrayBuffer)
    (pagesToExtract : option jsstring) (r : PageResult) :
  In r (yielded (fst (pdfProcessor fileBuffer pagesToExtract))) ->
  status r = OK \/ status r = ERROR.
Proof.
  destruct (load fileBuffer) as [src |] eqn:Hload.
  - destruct (pageIndicesToProcess (getPageCount src) pagesToExtract)
      as [indices | e] eqn:Htargets.
    + rewrite (pdfProcessor_completes _ _ _ _ Hload Htargets). cbn [fst].
      set (n := Z.of_nat (List.length indices)).
      change (In r (yielded (fst (pageLoop src n 0 indices) ++ [Progress (doneSnapshot n)]))
              -> status r = OK \/ status r = ERROR).
      rewrite yielded_app, pageLoop_yielded, app_nil_r.
      intros Hin. apply in_map_iff in Hin as [index [<- _]].
      apply pageResult_status.
    + rewrite (pdfProcessor_targets_fail _ _ _ _ Hload Htargets).
      intros [].
  - rewrite (pdfProcessor_load_fails _ _ Hload). intros [].
Qed.

(** C10.  Without a selection string, over a source document without any
    page, the run ends normally and yields nothing; it emits the ANALYZING
    snapshot, the SPLITTING snapshot with [totalPages] 0, and last
    [{stage: DONE, overallProgress: 100, processedPages: 0}]. *)
Theorem no_pages_no_outcome (fileBuffer : ArrayBuffer) (src : PDFDocument) :
  load fileBuffer = Some src ->
  getPageCount src = 0 ->
  pdfProcessor fileBuffer None
  = ([Progress {| stage := ANALYZING; overallProgress := 5;
                  processedPages := 0; totalPages := None |};
      Progress {| stage := SPLITTING; overallProgress := 10;
                  processedPages := 0; totalPages := Some 0 |};
      Progress {| stage := DONE; overallProgress := 100;
                  processedPages := 0; totalPages := None |}],
     Return tt)
  /\ yielded (fst (pdfProcessor fileBuffer None)) = [].
Proof.
  intros Hload Hcount.
  rewrite (pdfProcessor_completes fileBuffer None src [] Hload)
    by (simpl; now rewrite Hcount).
  split; reflexivity.
Qed.

(** C5, as the code has it.  When the source bytes do not load, or when a
    selection string other than the empty string is supplied and does not
    parse, the run emits the ANALYZING snapshot and then throws, before any
    outcome: [error_pdf_load] in the first case, the very error of
    [parsePageRanges] in the second.  A run given the empty string as
    selection is the run given no selection: when the document loads it
    ends normally and yields one outcome for every page of the document,
    numbered 1, 2, ... in this order. *)
Theorem request_failure_aborts (fileBuffer : ArrayBuffer)
    (pagesToExtract : option jsstring) :
  (forall e, requestFails fileBuffer pagesToExtract e ->
     pdfProcessor fileBuffer pagesToExtract
     = ([Progress {| stage := ANALYZING; overallProgress := 5;
                     processedPages := 0; totalPages := None |}], Throw e)
     /\ yielded (fst (pdfProcessor fileBuffer pagesToExtract)) = [])
  /\ pdfProcessor fileBuffer (Some []) = pdfProcessor fileBuffer None
  /\ (forall src, load fileBuffer = Some src ->
        snd (pdfProcessor fileBuffer (Some [])) = Return tt
        /\ map pageNumber (yielded (fst (pdfProcessor fileBuffer (Some []))))
           = map Z.of_nat (seq 1 (Z.to_nat (getPageCount src)))).
Proof.
  split; [| split].
  - intros e [Hload | src selection e' Hload -> Hnonempty Hparse].
    + rewrite (pdfProcessor_load_fails _ _ Hload). split; reflexivity.
    + rewrite (pdfProcessor_targets_fail _ _ src e' Hload).
      * split; reflexivity.
      * destruct selection as [| c s]; [congruence |].
        simpl. now rewrite Hparse.
  - reflexivity.
  - intros src Hload.
    rewrite (pdfProcessor_completes fileBuffer (Some []) src
               (indicesUpTo (getPageCount src)) Hload) by reflexivity.
    cbn [fst snd]. split; [reflexivity |].
    set (n := Z.of_nat (List.length (indicesUpTo (getPageCount src)))).
    change (map pageNumber
              (yielded (fst (pageLoop src n 0 (indicesUpTo (getPageCount src)))
                        ++ [Progress (doneSnapshot n)]))
            = map Z.of_nat (seq 1 (Z.to_nat (getPageCount src)))).
    rewrite yielded_app, pageLoop_yielded, app_nil_r.
    apply indicesUpTo_pageNumbers.
Qed.

End PipelineClaims.

Section ProgressFacts.

Context {binary64 : Binary64}.

Local Open Scope Q_scope.

Lemma round64_between (lo hi : Z) (x : Q) :
  (0 <= lo <= 100)%Z -> (0 <= hi <= 100)%Z ->
  inject_Z lo <= x <= inject_Z hi ->
  inject_Z lo <= round64 x <= inject_Z hi.
Proof.
  intros Hlo Hhi [Hx1 Hx2].
  apply round64_monotone in Hx1, Hx2.
  rewrite (round64_integer lo Hlo) in Hx1.
  rewrite (round64_integer hi Hhi) in Hx2.
  split; assumption.
Qed.

Lemma fraction_between (i n : Z) :
  (0 <= i < n)%Z -> 0 <= inject_Z (i + 1) / inject_Z n <= 1.
Proof.
  intros Hi.
  assert (Hn : 0 < inject_Z n) by (change 0 with (inject_Z 0); rewrite <- Zlt_Qlt; lia).
  split.
  - apply Qle_shift_div_l; [exact Hn |].
    rewrite Qmult_0_l. change 0 with (inject_Z 0). rewrite <- Zle_Qle. lia.
  - apply Qle_shift_div_r; [exact Hn |].
    rewrite Qmult_1_l. rewrite <- Zle_Qle. lia.
Qed.

Lemma fraction_monotone (i j n : Z) :
  (0 <= i <= j)%Z -> (j < n)%Z ->
  inject_Z (i + 1) / inject_Z n <= inject_Z (j + 1) / inject_Z n.
Proof.
  intros Hij Hjn. unfold Qdiv.
  apply Qmult_le_compat_r.
  - rewrite <- Zle_Qle. lia.
  - apply Qinv_le_0_compat. change 0 with (inject_Z 0). rewrite <- Zle_Qle. lia.
Qed.

Lemma progressAfter_between (i n : Z) :
  (0 <= i < n)%Z -> 10 <= progressAfter i n <= 100.
Proof.
  intros Hi. unfold progressAfter.
  pose proof (fraction_between i n Hi) as Hx.
  apply (round64_between 0 1) in Hx; [| lia | lia].
  set (r1 := round64 (inject_Z (i + 1) / inject_Z n)) in *.
  assert (H2 : inject_Z 0 <= 90 * r1 <= inject_Z 90).
  { change (inject_Z 0) with 0 in *. change (inject_Z 1) with 1 in Hx.
    change (inject_Z 90) with 90. lra. }
  apply (round64_between 0 90) in H2; [| lia | lia].
  set (r2 := round64 (90 * r1)) in *.
  assert (H3 : inject_Z 10 <= 10 + r2 <= inject_Z 100).
  { change (inject_Z 0) with 0 in H2. change (inject_Z 90) with 90 in H2.
    change (inject_Z 10) with 10. change (inject_Z 100) with 100. lra. }
  apply (round64_between 10 100) in H3; [| lia | lia].
  exact H3.
Qed.

Lemma progressAfter_monotone (i j n : Z) :
  (0 <= i <= j)%Z -> (j < n)%Z -> progressAfter i n <= progressAfter j n.
Proof.
  intros Hij Hjn. unfold progressAfter.
  apply round64_monotone. apply Qplus_le_r.
  apply round64_monotone. apply Qmult_le_l; [reflexivity |].
  apply round64_monotone. now apply fraction_monotone.
Qed.

(** A sequence read off increasing positions of a monotone function is
    sorted. *)
Lemma map_seq_sorted (f : nat -> Q) (len : nat) :
  forall start,
  (forall a b, (start <= a <= b)%nat -> (b < start + len)%nat -> f a <= f b) ->
  StronglySorted Qle (map f (seq start len)).
Proof.
  induction len as [| len IH]; intros start Hf; simpl.
  - constructor.
  - constructor.
    + apply IH. intros a b Hab Hb. apply Hf; lia.
    + apply Forall_forall. intros y Hy.
      apply in_map_iff in Hy as [b [<- Hb]]. apply in_seq in Hb.
      apply Hf; lia.
Qed.

Lemma sorted_snoc (l : list Q) (top : Q) :
  StronglySorted Qle l -> Forall (fun x => x <= top) l ->
  StronglySorted Qle (l ++ [top]).
Proof.
  induction 1 as [| x l Hl IH Hall]; intros Htop; simpl.
  - repeat constructor.
  - inversion Htop as [| ? ? Hx Htop']; subst.
    constructor; [now apply IH |].
    apply Forall_app. split; [assumption | now constructor].
Qed.

End ProgressFacts.

Section ProgressClaim.

Context {pdflib : PdfLib} {binary64 : Binary64}.

(** The progress values of a run whose request loads and whose targets
    resolve. *)
Lemma completed_progress_values (fileBuffer : ArrayBuffer)
    (pagesToExtract : option jsstring) (src : PDFDocument) (indices : list Z) :
  load fileBuffer = Some src ->
  pageIndicesToProcess (getPageCount src) pagesToExtract = Return indices ->
  let N := Z.of_nat (List.length indices) in
  let values :=
    map overallProgress (reported (fst (pdfProcessor fileBuffer pagesToExtract))) in
  values = 5%Q :: 10%Q
           :: map (fun i => progressAfter (Z.of_nat i) N) (seq 0 (List.length indices))
           ++ [100%Q]
  /\ StronglySorted Qle values
  /\ last values 0%Q = 100%Q.
Proof.
  intros Hload Htargets N values. subst values.
  rewrite (pdfProcessor_completes fileBuffer pagesToExtract src indices Hload Htargets).
  cbn [fst]. fold N.
  assert (Hvalues :
    map overallProgress
      (reported (Progress analyzingSnapshot :: Progress (splittingSnapshot N)
                 :: fst (pageLoop src N 0 indices) ++ [Progress (doneSnapshot N)]))
    = 5%Q :: 10%Q
      :: map (fun i => progressAfter (Z.of_nat i) N) (seq 0 (List.length indices))
      ++ [100%Q]).
  { change (5%Q :: 10%Q
            :: map overallProgress
                 (reported (fst (pageLoop src N 0 indices) ++ [Progress (doneSnapshot N)]))
            = 5%Q :: 10%Q
              :: map (fun i => progressAfter (Z.of_nat i) N) (seq 0 (List.length indices))
              ++ [100%Q]).
    rewrite reported_app, map_app, pageLoop_reported. reflexivity. }
  rewrite Hvalues. split; [reflexivity |].
  assert (Hbetween : Forall (fun x => (10 <= x <= 100)%Q)
            (map (fun i => progressAfter (Z.of_nat i) N) (seq 0 (List.length indices)))).
  { apply Forall_forall. intros x Hx.
    apply in_map_iff in Hx as [i [<- Hi]]. apply in_seq in Hi.
    apply progressAfter_between. unfold N. lia. }
  split.
  - constructor; [constructor |].
    + apply sorted_snoc.
      * apply map_seq_sorted. intros a b Hab Hb.
        apply progressAfter_monotone; unfold N; lia.
      * eapply Forall_impl; [| exact Hbetween]. simpl. intros x Hx. apply Hx.
    + apply Forall_app. split.
      * eapply Forall_impl; [| exact Hbetween]. simpl. intros x Hx. apply Hx.
      * repeat constructor. discriminate.
    + constructor; [discriminate |].
      apply Forall_app. split.
      * eapply Forall_impl; [| exact Hbetween]. simpl. intros x [Hx _].
        eapply Qle_trans; [| exact Hx]. discriminate.
      * repeat constructor. discriminate.
  - change (5%Q :: 10%Q
            :: map (fun i => progressAfter (Z.of_nat i) N) (seq 0 (List.length indices))
            ++ [100%Q])
      with ((5%Q :: 10%Q
             :: map (fun i => progressAfter (Z.of_nat i) N) (seq 0 (List.length indices)))
            ++ [100%Q]).
    apply last_last.
Qed.

(** C4, as the code has it.  In every run the [overallProgress] values
    emitted never decrease.  In a run whose request loads and whose targets
    resolve, with [N] the number of targets, they are, in order, 5, 10,
    then [10 + 90 * ((i + 1) / N)] for [i] from 0 to [N - 1], each
    operation rounded, then 100, and the last value is 100.  In a run that
    a request-level failure aborts, 5 is the only value emitted. *)
Theorem progress_never_decreases (fileBuffer : ArrayBuffer)
    (pagesToExtract : option jsstring) :
  let values :=
    map overallProgress (reported (fst (pdfProcessor fileBuffer pagesToExtract))) in
  StronglySorted Qle values
  /\ (forall src indices,
        load fileBuffer = Some src ->
        pageIndicesToProcess (getPageCount src) pagesToExtract = Return indices ->
        values
        = 5%Q :: 10%Q
          :: map (fun i =>
                    round64 (10 + round64 (90 * round64
                      (inject_Z (Z.of_nat i + 1)
                       / inject_Z (Z.of_nat (List.length indices))))))%Q
                 (seq 0 (List.length indices))
          ++ [100%Q]
        /\ last values 0%Q = 100%Q)
  /\ (forall e, requestFails fileBuffer pagesToExtract e -> values = [5%Q]).
Proof.
  intros values. subst values.
  assert (Hfailed : forall e, requestFails fileBuffer pagesToExtract e ->
            map overallProgress
              (reported (fst (pdfProcessor fileBuffer pagesToExtract))) = [5%Q]).
  { intros e [Hload | src selection e' Hload -> Hnonempty Hparse].
    - now rewrite (pdfProcessor_load_fails _ _ Hload).
    - rewrite (pdfProcessor_targets_fail _ _ src e' Hload); [reflexivity |].
      destruct selection as [| c s]; [congruence |]. simpl. now rewrite Hparse. }
  split; [| split].
  - destruct (load fileBuffer) as [src |] eqn:Hload.
    + destruct (pageIndicesToProcess (getPageCount src) pagesToExtract)
        as [indices | e] eqn:Htargets.
      * apply (completed_progress_values _ _ _ _ Hload Htargets).
      * rewrite (pdfProcessor_targets_fail _ _ _ _ Hload Htargets).
        repeat constructor.
    + rewrite (pdfProcessor_load_fails _ _ Hload). repeat constructor.
  - intros src indices Hload Htargets.
    destruct (completed_progress_values _ _ _ _ Hload Htargets)
      as (Hvalues & _ & Hlast).
    split; [exact Hvalues | exact Hlast].
  - exact Hfailed.
Qed.

End ProgressClaim.

(* ================================================================== *)
(** ** The pipeline claims on the sample documents                     *)
(* ================================================================== *)

Lemma no_selection_every_page_witness :
  @load Sample.pdflib (Some Sample.threePages) = Some Sample.threePages
  /\ @getPageCount Sample.pdflib Sample.threePages = 3
  /\ 1 <= 3
  /\ snd (Sample.run (Some Sample.threePages) None) = Return tt
  /\ List.length (yielded (fst (Sample.run (Some Sample.threePages) None))) = 3%nat
  /\ map pageNumber (yielded (fst (Sample.run (Some Sample.threePages) None)))
     = [1; 2; 3]
  /\ exists es,
       fst (Sample.run (Some Sample.threePages) None)
       = es ++ [Progress {| stage := DONE; overallProgress := 100;
                            processedPages := 3; totalPages := None |}].
Proof.
  split; [reflexivity |]. split; [reflexivity |]. split; [lia |].
  exact (@no_selection_every_page Sample.pdflib Sample.exact
           (Some Sample.threePages) Sample.threePages 3
           eq_refl eq_refl ltac:(lia)).
Defined.

Lemma page_failure_isolated_witness :
  @load Sample.pdflib (Some Sample.threePages) = Some Sample.threePages
  /\ pageIndicesToProcess (@getPageCount Sample.pdflib Sample.threePages)
       (Some (js "1-3")) = Return [0; 1; 2]
  /\ nth_error [0; 1; 2] 1 = Some 1
  /\ @copyOrSerializeFails Sample.pdflib Sample.threePages 1
  /\ snd (Sample.run (Some Sample.threePages) (Some (js "1-3"))) = Return tt
  /\ map pageNumber (yielded (fst (Sample.run (Some Sample.threePages) (Some (js "1-3")))))
     = [1; 2; 3]
  /\ nth_error (yielded (fst (Sample.run (Some Sample.threePages) (Some (js "1-3"))))) 1
     = Some {| pageNumber := 2; finalSize := 0; status := ERROR; blob := None |}
  /\ nth_error (yielded (fst (Sample.run (Some Sample.threePages) (Some (js "1-3"))))) 2
     = Some {| pageNumber := 3; finalSize := 3; status := OK;
               blob := Some (mkBlob [Byte.x50; Byte.x44; Byte.x46] "application/pdf") |}.
Proof.
  assert (Hfails : @copyOrSerializeFails Sample.pdflib Sample.threePages 1)
    by (left; reflexivity).
  split; [reflexivity |]. split; [reflexivity |]. split; [reflexivity |].
  split; [exact Hfails |].
  pose proof (@page_failure_isolated Sample.pdflib Sample.exact
                (Some Sample.threePages) (Some (js "1-3")) Sample.threePages
                [0; 1; 2] eq_refl eq_refl) as [Hend [Hpages [Hfailed Hdone]]].
  split; [exact Hend |]. split; [exact Hpages |].
  split; [exact (Hfailed 1%nat 1 eq_refl Hfails) |].
  exact (Hdone 2%nat 2 _ _ eq_refl eq_refl eq_refl).
Defined.

Lemma yielded_status_terminal_witness :
  In {| pageNumber := 2; finalSize := 0; status := ERROR; blob := None |}
     (yielded (fst (Sample.run (Some Sample.threePages) None)))
  /\ (status {| pageNumber := 2; finalSize := 0; status := ERROR; blob := None |} = OK
      \/ status {| pageNumber := 2; finalSize := 0; status := ERROR; blob := None |} = ERROR).
Proof.
  assert (Hin : In {| pageNumber := 2; finalSize := 0; status := ERROR; blob := None |}
                  (yielded (fst (Sample.run (Some Sample.threePages) None))))
    by (right; left; reflexivity).
  split; [exact Hin |].
  exact (@yielded_status_terminal Sample.pdflib Sample.exact
           (Some Sample.threePages) None _ Hin).
Defined.

Lemma no_pages_no_outcome_witness :
  @load Sample.pdflib (Some Sample.noPages) = Some Sample.noPages
  /\ @getPageCount Sample.pdflib Sample.noPages = 0
  /\ Sample.run (Some Sample.noPages) None
     = ([Progress {| stage := ANALYZING; overallProgress := 5;
                     processedPages := 0; totalPages := None |};
         Progress {| stage := SPLITTING; overallProgress := 10;
                     processedPages := 0; totalPages := Some 0 |};
         Progress {| stage := DONE; overallProgress := 100;
                     processedPages := 0; totalPages := None |}],
        Return tt)
  /\ yielded (fst (Sample.run (Some Sample.noPages) None)) = [].
Proof.
  split; [reflexivity |]. split; [reflexivity |].
  exact (@no_pages_no_outcome Sample.pdflib Sample.exact
           (Some Sample.noPages) Sample.noPages eq_refl eq_refl).
Defined.

Lemma request_failure_aborts_witness :
  @requestFails Sample.pdflib (Some Sample.twoPages) (Some (js "2-1"))
    error_pageSelection_invalidRangeOrder
  /\ Sample.run (Some Sample.twoPages) (Some (js "2-1"))
     = ([Progress {| stage := ANALYZING; overallProgress := 5;
                     processedPages := 0; totalPages := None |}],
        Throw error_pageSelection_invalidRangeOrder)
  /\ yielded (fst (Sample.run (Some Sample.twoPages) (Some (js "2-1")))) = []
  /\ Sample.run (Some Sample.twoPages) (Some []) = Sample.run (Some Sample.twoPages) None
  /\ snd (Sample.run (Some Sample.twoPages) (Some [])) = Return tt
  /\ map pageNumber (yielded (fst (Sample.run (Some Sample.twoPages) (Some []))))
     = [1; 2].
Proof.
  assert (Hfails : @requestFails Sample.pdflib (Some Sample.twoPages) (Some (js "2-1"))
                     error_pageSelection_invalidRangeOrder).
  { apply (@selection_fails Sample.pdflib _ _ Sample.twoPages (js "2-1"));
      [reflexivity | reflexivity | discriminate | reflexivity]. }
  pose proof (@request_failure_aborts Sample.pdflib Sample.exact
                (Some Sample.twoPages) (Some (js "2-1")))
    as (Haborts & Hsame & Hevery).
  destruct (Haborts _ Hfails) as [Hrun Hnone].
  destruct (Hevery Sample.twoPages eq_refl) as [Hend Hpages].
  split; [exact Hfails |]. split; [exact Hrun |]. split; [exact Hnone |].
  split; [exact Hsame |]. split; [exact Hend | exact Hpages].
Defined.

(** C5, as stated, fails on the empty string: [parsePageRanges] rejects it,
    but the pipeline takes an empty [pagesToExtract] for an absent one and
    splits every page. *)
Lemma empty_selection_runs_every_page :
  parsePageRanges [] (@getPageCount Sample.pdflib Sample.twoPages)
  = Throw error_pageSelection_empty
  /\ snd (Sample.run (Some Sample.twoPages) (Some [])) = Return tt
  /\ map (fun r => (pageNumber r, status r))
         (yielded (fst (Sample.run (Some Sample.twoPages) (Some []))))
     = [(1, OK); (2, OK)].
Proof. repeat split. Qed.

Lemma progress_never_decreases_witness :
  @load Sample.pdflib (Some Sample.threePages) = Some Sample.threePages
  /\ pageIndicesToProcess (@getPageCount Sample.pdflib Sample.threePages)
       (Some (js "3,1")) = Return [0; 2]
  /\ StronglySorted Qle
       (map overallProgress
          (reported (fst (Sample.run (Some Sample.threePages) (Some (js "3,1"))))))
  /\ map overallProgress
         (reported (fst (Sample.run (Some Sample.threePages) (Some (js "3,1")))))
     = [5; 10;
        10 + 90 * (inject_Z (Z.of_nat 0 + 1) / inject_Z (Z.of_nat 2));
        10 + 90 * (inject_Z (Z.of_nat 1 + 1) / inject_Z (Z.of_nat 2));
        100]%Q
  /\ last (map overallProgress
             (reported (fst (Sample.run (Some Sample.threePages) (Some (js "3,1"))))))
          0%Q
     = 100%Q
  /\ Forall2 Qeq
       (map overallProgress
          (reported (fst (Sample.run (Some Sample.threePages) (Some (js "3,1"))))))
       [5; 10; 55; 100; 100]%Q.
Proof.
  pose proof (@progress_never_decreases Sample.pdflib Sample.exact
                (Some Sample.threePages) (Some (js "3,1")))
    as (Hsorted & Hcompleted & _).
  destruct (Hcompleted Sample.threePages [0; 2] eq_refl eq_refl) as [Hvalues Hlast].
  split; [reflexivity |]. split; [reflexivity |]. split; [exact Hsorted |].
  split; [exact Hvalues |]. split; [exact Hlast |].
  repeat constructor; reflexivity.
Defined.

(** C4, as stated, fails on a request that does not load: the run emits
    the ANALYZING snapshot and throws, so that the only value is 5 and the
    last value emitted is not 100. *)
Lemma failed_request_stops_at_5 :
  @load Sample.pdflib None = None
  /\ snd (Sample.run None None) = Throw error_pdf_load
  /\ map overallProgress (reported (fst (Sample.run None None))) = [5%Q]
  /\ ~ (last (map overallProgress (reported (fst (Sample.run None None)))) 0
        == 100)%Q.
Proof.
  split; [reflexivity |]. split; [reflexivity |]. split; [reflexivity |].
  intros H. discriminate H.
Qed.

(* ================================================================== *)
(** ** The range parser: what a token does, whatever the set           *)
(* ================================================================== *)

Section TokenFacts.

Variable totalPages : Z.

(** A token is rejected or accepted on its own: the pages already in the
    set play no part.  An accepted token names the pages of one interval
    of the document. *)
Lemma processPart_cases (part : jsstring) :
  (exists e, forall pageNumbers, processPart totalPages pageNumbers part = Throw e)
  \/ (exists s e,
        1 <= s /\ s <= e /\ e <= totalPages
        /\ (forall p, covers part p <-> s <= p <= e)
        /\ forall pageNumbers,
             processPart totalPages pageNumbers part
             = Return (fold_left (fun acc i => set_add i acc) (pagesBetween s e)
                         pageNumbers)).
Proof.
  unfold processPart, covers.
  destruct (includes hyphen part) eqn:Hhyphen.
  - destruct (split hyphen part) as [| a [| b [| c pieces]]] eqn:Hsplit;
      try (left; eexists; intros; reflexivity).
    cbn [List.length Nat.eqb negb orb nth].
    destruct (isEmpty (trim a) || isEmpty (trim b));
      [left; eexists; intros; reflexivity |].
    destruct (isNaN (parseInt a) || isNaN (parseInt b)) eqn:Hnan;
      [left; eexists; intros; reflexivity |].
    destruct (num_gt (parseInt a) (parseInt b)) eqn:Hord;
      [left; eexists; intros; reflexivity |].
    destruct (num_lt (parseInt a) (Num 1) || num_gt (parseInt b) (Num totalPages))
      eqn:Hbnd; [left; eexists; intros; reflexivity |].
    destruct (guards_finite totalPages _ _ Hnan Hord Hbnd)
      as (s & e & Hs & He & H1 & H2 & H3).
    right. exists s, e. rewrite Hs, He.
    split; [exact H1 |]. split; [exact H2 |]. split; [exact H3 |].
    split; [| intros pageNumbers; reflexivity].
    intros p. split.
    + intros [[Hno _] | [_ (a' & b' & s' & e' & Heq & Hs' & He' & Hp)]];
        [discriminate |].
      injection Heq as Ea Eb. subst a' b'. rewrite Hs in Hs'. rewrite He in He'.
      injection Hs' as Es. injection He' as Ee. lia.
    + intros Hp. right. split; [reflexivity |].
      exists a, b, s, e. repeat split; try assumption; lia.
  - destruct (isNaN (parseInt part)) eqn:Hnan;
      [left; eexists; intros; reflexivity |].
    destruct (num_lt (parseInt part) (Num 1) || num_gt (parseInt part) (Num totalPages))
      eqn:Hbnd; [left; eexists; intros; reflexivity |].
    destruct (single_guard_finite totalPages _ Hnan Hbnd) as (q & Hq & Hrange).
    right. exists q, q. rewrite Hq.
    split; [lia |]. split; [lia |]. split; [lia |]. split.
    + intros p. split.
      * intros [[_ Hp] | [Hyes _]]; [| discriminate]. injection Hp as Ep. lia.
      * intros Hp. left. split; [reflexivity |]. f_equal. lia.
    + intros pageNumbers. unfold pagesBetween.
      replace (q - q + 1) with 1 by lia. simpl. now rewrite Z.add_0_r.
Qed.

(** The error kinds of the token loop. *)
Lemma processPart_Throw_kind (pageNumbers : NumSet) (part : jsstring) (e : error) :
  processPart totalPages pageNumbers part = Throw e ->
  e = error_pageSelection_invalidRangeFormat
  \/ e = error_pageSelection_invalidRangeOrder
  \/ e = error_pageSelection_invalidNumber
  \/ e = error_pageSelection_outOfBounds.
Proof.
  unfold processPart.
  repeat match goal with
         | |- context [if ?c then _ else _] => destruct c
         | |- context [match parseInt ?x with _ => _ end] => destruct (parseInt x)
         end; intros [= <-]; tauto.
Qed.

Lemma processParts_Throw_kind (parts : list jsstring) :
  forall pageNumbers e,
  processParts totalPages pageNumbers parts = Throw e ->
  e = error_pageSelection_invalidRangeFormat
  \/ e = error_pageSelection_invalidRangeOrder
  \/ e = error_pageSelection_invalidNumber
  \/ e = error_pageSelection_outOfBounds.
Proof.
  induction parts as [| part parts IH]; intros s e Hthrow; simpl in Hthrow.
  - discriminate.
  - destruct (processPart totalPages s part) as [s1 | e1] eqn:Hpart.
    + eapply IH; eassumption.
    + injection Hthrow as <-. eapply processPart_Throw_kind; eassumption.
Qed.

(** What the loop has accumulated when it ends without a throw. *)
Lemma processParts_In (parts : list jsstring) :
  forall pageNumbers pageNumbers',
  processParts totalPages pageNumbers parts = Return pageNumbers' ->
  forall p, In p pageNumbers'
            <-> In p pageNumbers \/ exists part, In part parts /\ covers part p.
Proof.
  induction parts as [| part parts IH]; intros s s' Hret p; simpl in Hret.
  - injection Hret as <-. simpl. split; [tauto |].
    intros [H | [part [[] _]]]. exact H.
  - destruct (processPart_cases part) as [[e He] | (lo & hi & _ & _ & _ & Hcov & Hacc)].
    + rewrite He in Hret. discriminate.
    + rewrite Hacc in Hret. rewrite (IH _ _ Hret p), add_all_In, pagesBetween_In.
      rewrite <- Hcov. simpl. split.
      * intros [[H | H] | [part' [Hin Hc]]].
        -- now left.
        -- right. exists part. split; [now left | exact H].
        -- right. exists part'. split; [now right | exact Hc].
      * intros [H | [part' [[<- | Hin] Hc]]].
        -- left. now left.
        -- left. now right.
        -- right. exists part'. split; assumption.
Qed.

(** The loop ends without a throw exactly when every token is accepted. *)
Lemma processParts_accepts (parts : list jsstring) :
  forall pageNumbers,
  (exists pageNumbers', processParts totalPages pageNumbers parts = Return pageNumbers')
  <-> Forall (fun part => exists s, processPart totalPages [] part = Return s) parts.
Proof.
  induction parts as [| part parts IH]; intros s; simpl.
  - split; [constructor | intros _; now exists s].
  - destruct (processPart_cases part) as [[e He] | (lo & hi & _ & _ & _ & _ & Hacc)].
    + rewrite He. split.
      * intros [s' H]. discriminate.
      * intros H. inversion H as [| ? ? [s1 H1] _]; subst.
        rewrite He in H1. discriminate.
    + rewrite Hacc, IH. split.
      * intros H. constructor; [| exact H]. rewrite Hacc. eexists. reflexivity.
      * intros H. now inversion H.
Qed.

End TokenFacts.

(* ================================================================== *)
(** ** The range parser: the whole function                            *)
(* ================================================================== *)

Lemma trim_nonblank_nonempty (s : jsstring) : trim s <> [] -> isEmpty s = false.
Proof. destruct s; [intros H; now elim H | reflexivity]. Qed.

Lemma isEmpty_false (s : jsstring) : isEmpty s = false <-> s <> [].
Proof. destruct s; simpl; split; congruence. Qed.

Lemma processParts_nonempty (totalPages : Z) (parts : list jsstring)
    (pageNumbers pageNumbers' : NumSet) :
  parts <> [] ->
  processParts totalPages pageNumbers parts = Return pageNumbers' ->
  pageNumbers' <> [].
Proof.
  destruct parts as [| part parts]; [congruence |]. intros _ Hret. simpl in Hret.
  destruct (processPart totalPages pageNumbers part) as [s1 | err] eqn:Hpart;
    [| discriminate].
  apply processPart_nonempty in Hpart as [Hne _].
  apply processParts_incl in Hret.
  destruct s1 as [| x s1]; [congruence |].
  intros ->. exact (Hret x (or_introl eq_refl)).
Qed.

Lemma tokens_nonempty (selection : jsstring) : tokens selection <> [].
Proof.
  unfold tokens. intros H. apply map_eq_nil in H. exact (split_nonempty _ _ H).
Qed.

(** The parser returns exactly when the selection is not blank, passes the
    character test, and every token is accepted; it then returns the
    accumulated set, sorted. *)
Lemma parsePageRanges_Return_iff (selection : jsstring) (totalPages : Z)
    (pages : list Z) :
  parsePageRanges selection totalPages = Return pages
  <-> trim selection <> [] /\ regexTest selection = true
      /\ exists pageNumbers,
           processParts totalPages [] (tokens selection) = Return pageNumbers
           /\ pages = sort (fun a b => a - b) pageNumbers.
Proof.
  unfold parsePageRanges. fold (tokens selection). split.
  - destruct (isEmpty selection || isEmpty (trim selection)) eqn:Hblank;
      [discriminate |].
    apply orb_false_iff in Hblank as [_ Hblank]. apply isEmpty_false in Hblank.
    destruct (regexTest selection); [| discriminate]. simpl.
    destruct (processParts totalPages [] (tokens selection)) as [set | err];
      [| discriminate].
    destruct (set_size set =? 0); [discriminate |].
    intros [= <-]. repeat split; try assumption. now exists set.
  - intros (Hblank & Hre & set & Hloop & ->).
    rewrite (trim_nonblank_nonempty _ Hblank).
    apply isEmpty_false in Hblank. rewrite Hblank, Hre, Hloop. simpl.
    apply processParts_nonempty in Hloop; [| apply tokens_nonempty].
    destruct set; [congruence | reflexivity].
Qed.

Lemma parsePageRanges_Return_set (selection : jsstring) (totalPages : Z)
    (pages : list Z) :
  parsePageRanges selection totalPages = Return pages ->
  exists pageNumbers,
    processParts totalPages [] (tokens selection) = Return pageNumbers
    /\ Permutation pages pageNumbers
    /\ NoDup pages
    /\ StronglySorted Z.lt pages
    /\ Forall (fun p => 1 <= p <= totalPages) pages
    /\ pages <> [].
Proof.
  intros Hret. apply parsePageRanges_Return_iff in Hret
    as (_ & _ & set & Hloop & ->).
  exists set. split; [exact Hloop |].
  destruct (processParts_invariant totalPages _ _ _ Hloop) as [Hnd Hin].
  { split; constructor. }
  assert (Hperm := sort_perm set).
  assert (Hnd' : NoDup (sort (fun a b => a - b) set)).
  { eapply Permutation_NoDup; [apply Permutation_sym, Hperm | exact Hnd]. }
  split; [exact Hperm |]. split; [exact Hnd' |].
  split; [apply sorted_NoDup_strict; [apply sort_sorted | exact Hnd'] |].
  split; [eapply Permutation_Forall; [apply Permutation_sym, Hperm | exact Hin] |].
  intros Hnil. rewrite Hnil in Hperm. apply Permutation_nil in Hperm.
  apply processParts_nonempty in Hloop; [congruence | apply tokens_nonempty].
Qed.

(** X1.  A selection the parser accepts resolves to at least one page, and
    the document then has at least one page: over a document without pages
    the parser rejects every selection. *)
Theorem parsePageRanges_never_empty (selection : jsstring) (totalPages : Z)
    (pages : list Z) :
  parsePageRanges selection totalPages = Return pages ->
  pages <> [] /\ 1 <= totalPages.
Proof.
  intros Hret.
  destruct (parsePageRanges_Return_set _ _ _ Hret)
    as (set & _ & _ & _ & _ & Hin & Hne).
  split; [exact Hne |].
  destruct pages as [| p pages]; [congruence |].
  inversion Hin as [| ? ? Hp _]; subst. lia.
Qed.

Lemma parsePageRanges_never_empty_witness :
  parsePageRanges (js "2-3") 3 = Return [2; 3] /\ [2; 3] <> [] /\ 1 <= 3.
Proof.
  split; [reflexivity |].
  exact (parsePageRanges_never_empty (js "2-3") 3 [2; 3] eq_refl).
Defined.

(** X2.  The parser never returns more pages than the document has. *)
Theorem parsePageRanges_at_most_totalPages (selection : jsstring)
    (totalPages : Z) (pages : list Z) :
  parsePageRanges selection totalPages = Return pages ->
  Z.of_nat (List.length pages) <= totalPages.
Proof.
  intros Hret.
  destruct (parsePageRanges_Return_set _ _ _ Hret)
    as (set & _ & _ & Hnd & _ & Hin & Hne).
  assert (Htotal : 1 <= totalPages).
  { destruct pages as [| p pages]; [congruence |].
    inversion Hin as [| ? ? Hp _]; subst. lia. }
  assert (Hincl : incl pages (map Z.of_nat (seq 1 (Z.to_nat totalPages)))).
  { intros p Hp. rewrite Forall_forall in Hin. specialize (Hin p Hp).
    simpl in Hin. apply in_map_iff. exists (Z.to_nat p). split; [lia | apply in_seq; lia]. }
  apply NoDup_incl_length in Hincl; [| exact Hnd].
  rewrite length_map, length_seq in Hincl. lia.
Qed.

Lemma parsePageRanges_at_most_totalPages_witness :
  parsePageRanges (js "1-3,2,3,1-2") 3 = Return [1; 2; 3]
  /\ Z.of_nat (List.length [1; 2; 3]) <= 3.
Proof.
  split; [reflexivity |].
  exact (parsePageRanges_at_most_totalPages (js "1-3,2,3,1-2") 3 [1; 2; 3] eq_refl).
Defined.

(** X3.  The pages the parser returns are exactly the pages its tokens
    name: a page is in the result if and only if some token is that page
    or a range around it. *)
Theorem parsePageRanges_pages_of_tokens (selection : jsstring)
    (totalPages : Z) (pages : list Z) (p : Z) :
  parsePageRanges selection totalPages = Return pages ->
  (In p pages <-> exists part, In part (tokens selection) /\ covers part p).
Proof.
  intros Hret.
  destruct (parsePageRanges_Return_set _ _ _ Hret) as (set & Hloop & Hperm & _).
  assert (Hiff : In p set <-> In p [] \/ exists part, In part (tokens selection) /\ covers part p)
    by apply (processParts_In totalPages _ _ _ Hloop p).
  split.
  - intros Hp. apply (Permutation_in _ Hperm) in Hp. apply Hiff in Hp.
    destruct Hp as [[] | Hp]. exact Hp.
  - intros Hp. apply (Permutation_in _ (Permutation_sym Hperm)).
    apply Hiff. now right.
Qed.

Lemma parsePageRanges_pages_of_tokens_witness :
  parsePageRanges (js "1, 3-4") 5 = Return [1; 3; 4]
  /\ (In 4 [1; 3; 4]
      <-> exists part, In part (tokens (js "1, 3-4")) /\ covers part 4).
Proof.
  split; [reflexivity |].
  exact (parsePageRanges_pages_of_tokens (js "1, 3-4") 5 [1; 3; 4] 4 eq_refl).
Defined.

(** X4.  The parser throws [error_pageSelection_empty] exactly on the
    selections that are empty or blank: once a selection holds a
    character that [trim] keeps, no later step reports it as empty. *)
Theorem empty_error_iff_blank (selection : jsstring) (totalPages : Z) :
  parsePageRanges selection totalPages = Throw error_pageSelection_empty
  <-> trim selection = [].
Proof.
  split.
  - unfold parsePageRanges. fold (tokens selection).
    destruct (isEmpty selection || isEmpty (trim selection)) eqn:Hblank.
    + intros _. apply orb_true_iff in Hblank as [H | H].
      * destruct selection; [reflexivity | discriminate].
      * destruct (trim selection); [reflexivity | discriminate].
    + destruct (negb (regexTest selection)); [discriminate |].
      destruct (processParts totalPages [] (tokens selection)) as [set | err] eqn:Hloop.
      * apply processParts_nonempty in Hloop; [| apply tokens_nonempty].
        destruct set; [congruence | discriminate].
      * intros [= ->]. apply processParts_Throw_kind in Hloop.
        destruct Hloop as [H | [H | [H | H]]]; discriminate.
  - intros Hblank. unfold parsePageRanges. rewrite Hblank. simpl.
    now rewrite orb_true_r.
Qed.

(** X5.  The parser throws [error_pageSelection_invalidChars] exactly on
    the selections that are not blank and hold a character other than a
    digit, a comma, a hyphen or white space. *)
Theorem invalidChars_error_iff (selection : jsstring) (totalPages : Z) :
  parsePageRanges selection totalPages = Throw error_pageSelection_invalidChars
  <-> trim selection <> []
      /\ exists c, In c selection /\ allowedChar c = false.
Proof.
  assert (Hre : forall s, s <> [] ->
            (regexTest s = false <-> exists c, In c s /\ allowedChar c = false)).
  { intros s Hs. unfold regexTest. apply isEmpty_false in Hs. rewrite Hs. simpl.
    split.
    - intros Hall. apply not_true_iff_false in Hall.
      rewrite forallb_forall in Hall.
      destruct (existsb (fun c => negb (allowedChar c)) s) eqn:Hex.
      + apply existsb_exists in Hex as [c [Hin Hc]]. exists c.
        split; [exact Hin | now apply negb_true_iff].
      + exfalso. apply Hall. intros c Hc.
        destruct (allowedChar c) eqn:Hac; [reflexivity |].
        assert (existsb (fun c => negb (allowedChar c)) s = true).
        { apply existsb_exists. exists c. now rewrite Hac. }
        congruence.
    - intros [c [Hin Hc]]. apply not_true_iff_false. intros Hall.
      rewrite forallb_forall in Hall. rewrite (Hall c Hin) in Hc. discriminate. }
  unfold parsePageRanges. fold (tokens selection). split.
  - destruct (isEmpty selection || isEmpty (trim selection)) eqn:Hblank;
      [discriminate |].
    apply orb_false_iff in Hblank as [Hne Hblank].
    apply isEmpty_false in Hne, Hblank.
    destruct (regexTest selection) eqn:Htest; simpl.
    + destruct (processParts totalPages [] (tokens selection)) as [set | err] eqn:Hloop.
      * destruct (set_size set =? 0); discriminate.
      * intros [= ->]. apply processParts_Throw_kind in Hloop.
        destruct Hloop as [H | [H | [H | H]]]; discriminate.
    + intros _. split; [exact Hblank |]. now apply Hre.
  - intros [Hblank Hbad].
    rewrite (trim_nonblank_nonempty _ Hblank).
    assert (Hne : selection <> []).
    { apply isEmpty_false. now apply trim_nonblank_nonempty. }
    apply (Hre _ Hne) in Hbad. apply isEmpty_false in Hblank.
    now rewrite Hblank, Hbad.
Qed.

Lemma invalidChars_error_iff_witness :
  parsePageRanges (js "1;2") 9 = Throw error_pageSelection_invalidChars
  <-> trim (js "1;2") <> []
      /\ exists c, In c (js "1;2") /\ allowedChar c = false.
Proof. exact (invalidChars_error_iff (js "1;2") 9). Defined.

Lemma num_gt_more_pages (x : number) (a b : Z) :
  a <= b -> num_gt x (Num a) = false -> num_gt x (Num b) = false.
Proof.
  unfold num_gt. destruct x as [| z | |]; simpl; try congruence.
  intros Hab Hz. apply Z.ltb_ge in Hz. apply Z.ltb_ge. lia.
Qed.

Lemma processPart_more_pages (totalPages totalPages' : Z)
    (pageNumbers pageNumbers' : NumSet) (part : jsstring) :
  totalPages <= totalPages' ->
  processPart totalPages pageNumbers part = Return pageNumbers' ->
  processPart totalPages' pageNumbers part = Return pageNumbers'.
Proof.
  intros Hle. unfold processPart.
  destruct (includes hyphen part).
  - destruct (negb _ || _ || _); [discriminate |].
    destruct (isNaN _ || isNaN _); [discriminate |].
    destruct (num_gt (parseInt _) (parseInt _)); [discriminate |].
    destruct (num_lt _ _ || num_gt _ (Num totalPages)) eqn:Hbnd; [discriminate |].
    apply orb_false_iff in Hbnd as [Hlo Hhi].
    rewrite Hlo, (num_gt_more_pages _ _ _ Hle Hhi). simpl. trivial.
  - destruct (isNaN _); [discriminate |].
    destruct (num_lt _ _ || num_gt _ (Num totalPages)) eqn:Hbnd; [discriminate |].
    apply orb_false_iff in Hbnd as [Hlo Hhi].
    rewrite Hlo, (num_gt_more_pages _ _ _ Hle Hhi). simpl. trivial.
Qed.

Lemma processParts_more_pages (totalPages totalPages' : Z) (parts : list jsstring) :
  totalPages <= totalPages' ->
  forall pageNumbers pageNumbers',
  processParts totalPages pageNumbers parts = Return pageNumbers' ->
  processParts totalPages' pageNumbers parts = Return pageNumbers'.
Proof.
  intros Hle. induction parts as [| part parts IH]; intros s s' Hret; simpl in *.
  - exact Hret.
  - destruct (processPart totalPages s part) as [s1 | err] eqn:Hpart; [| discriminate].
    rewrite (processPart_more_pages _ _ _ _ _ Hle Hpart). now apply IH.
Qed.

(** X6.  A selection accepted for a document is accepted, with the same
    pages, for every document that has at least as many pages. *)
Theorem parsePageRanges_more_pages (selection : jsstring)
    (totalPages totalPages' : Z) (pages : list Z) :
  totalPages <= totalPages' ->
  parsePageRanges selection totalPages = Return pages ->
  parsePageRanges selection totalPages' = Return pages.
Proof.
  intros Hle Hret. apply parsePageRanges_Return_iff in Hret
    as (Hblank & Hre & set & Hloop & ->).
  apply parsePageRanges_Return_iff. repeat split; try assumption.
  exists set. split; [| reflexivity].
  eapply processParts_more_pages; eassumption.
Qed.

Lemma parsePageRanges_more_pages_witness :
  4 <= 7
  /\ parsePageRanges (js "4,1-2") 4 = Return [1; 2; 4]
  /\ parsePageRanges (js "4,1-2") 7 = Return [1; 2; 4].
Proof.
  split; [lia |]. split; [reflexivity |].
  exact (parsePageRanges_more_pages (js "4,1-2") 4 7 [1; 2; 4] ltac:(lia) eq_refl).
Defined.

(* ================================================================== *)
(** ** Strings: what [trim], [split] and [parseInt] keep               *)
(* ================================================================== *)

Section CharFacts.

Lemma dropWhile_incl (p : codeunit -> bool) (s : jsstring) (c : codeunit) :
  In c (dropWhile p s) -> In c s.
Proof.
  induction s as [| x s IH]; simpl; [tauto |].
  destruct (p x); simpl; tauto.
Qed.

Lemma dropWhile_keeps (p : codeunit -> bool) (s : jsstring) (c : codeunit) :
  In c s -> p c = false -> In c (dropWhile p s).
Proof.
  induction s as [| x s IH]; simpl; [tauto |].
  intros [-> | Hin] Hc.
  - rewrite Hc. now left.
  - destruct (p x); [now apply IH | now right].
Qed.

Lemma dropWhile_head (p : codeunit -> bool) (s r : jsstring) (c : codeunit) :
  dropWhile p s = c :: r -> p c = false.
Proof.
  induction s as [| x s IH]; simpl; [discriminate |].
  destruct (p x) eqn:Hx; [exact IH |]. intros [= <- _]. exact Hx.
Qed.

Lemma dropWhile_snoc (p : codeunit -> bool) (s : jsstring) (c : codeunit) :
  p c = false -> dropWhile p (s ++ [c]) = dropWhile p s ++ [c].
Proof.
  intros Hc. induction s as [| x s IH]; simpl.
  - now rewrite Hc.
  - destruct (p x); [exact IH | reflexivity].
Qed.

Lemma trimEnd_cons (c : codeunit) (r : jsstring) :
  isWhiteSpace c = false -> trimEnd (c :: r) = c :: trimEnd r.
Proof.
  intros Hc. unfold trimEnd. simpl rev.
  rewrite (dropWhile_snoc _ _ _ Hc), rev_app_distr. reflexivity.
Qed.

Lemma trim_incl (s : jsstring) (c : codeunit) : In c (trim s) -> In c s.
Proof.
  unfold trim, trimEnd, trimStart. intros Hin.
  rewrite <- in_rev in Hin. apply dropWhile_incl in Hin.
  rewrite <- in_rev in Hin. now apply dropWhile_incl in Hin.
Qed.

Lemma trim_keeps (s : jsstring) (c : codeunit) :
  In c s -> isWhiteSpace c = false -> In c (trim s).
Proof.
  unfold trim, trimEnd, trimStart. intros Hin Hc.
  rewrite <- in_rev. apply dropWhile_keeps; [| exact Hc].
  rewrite <- in_rev. now apply dropWhile_keeps.
Qed.

(** A trimmed string starts with something else than white space. *)
Lemma trim_head (s r : jsstring) (c : codeunit) :
  trim s = c :: r -> isWhiteSpace c = false.
Proof.
  unfold trim. destruct (trimStart s) as [| c0 r0] eqn:Hstart.
  - discriminate.
  - apply dropWhile_head in Hstart.
    rewrite (trimEnd_cons _ _ Hstart). now intros [= <- _].
Qed.

Lemma trimStart_nonblank (s : jsstring) : trim s <> [] -> trimStart s <> [].
Proof.
  unfold trim. intros Hne Hnil. apply Hne. now rewrite Hnil.
Qed.

Lemma split_incl (sep : codeunit) (s : jsstring) :
  forall piece c, In piece (split sep s) -> In c piece -> In c s.
Proof.
  induction s as [| x s IH]; intros piece c Hpiece Hc; simpl in Hpiece.
  - destruct Hpiece as [<- | []]. exact Hc.
  - destruct (x =? sep)%N.
    + destruct Hpiece as [<- | Hpiece]; [destruct Hc |].
      right. eapply IH; eassumption.
    + destruct (split sep s) as [| first others] eqn:Hsplit.
      * destruct Hpiece as [<- | []]. destruct Hc as [<- | []]. now left.
      * destruct Hpiece as [<- | Hpiece].
        -- destruct Hc as [<- | Hc]; [now left |].
           right. apply (IH first c); [now left | exact Hc].
        -- right. apply (IH piece c); [now right | exact Hc].
Qed.

Lemma split_no_separator (sep : codeunit) (s : jsstring) :
  forall piece, In piece (split sep s) -> ~ In sep piece.
Proof.
  induction s as [| x s IH]; intros piece Hpiece; simpl in Hpiece.
  - destruct Hpiece as [<- | []]. intros [].
  - destruct (x =? sep)%N eqn:Hx.
    + destruct Hpiece as [<- | Hpiece]; [intros [] | now apply IH].
    + apply N.eqb_neq in Hx.
      destruct (split sep s) as [| first others] eqn:Hsplit.
      * destruct Hpiece as [<- | []]. intros [-> | []]. congruence.
      * destruct Hpiece as [<- | Hpiece].
        -- intros [-> | Hin]; [congruence |].
           apply (IH first); [now left | exact Hin].
        -- apply IH. now right.
Qed.

Lemma split_covers (sep : codeunit) (s : jsstring) (c : codeunit) :
  In c s -> c = sep \/ exists piece, In piece (split sep s) /\ In c piece.
Proof.
  induction s as [| x s IH]; simpl; [tauto |].
  intros [-> | Hin].
  - destruct (c =? sep)%N eqn:Hc.
    + left. now apply N.eqb_eq.
    + right. destruct (split sep s) as [| first others].
      * exists [c]. split; now left.
      * exists (c :: first). split; now left.
  - destruct (IH Hin) as [-> | [piece [Hpiece Hc]]]; [now left |]. right.
    destruct (x =? sep)%N.
    + exists piece. split; [now right | exact Hc].
    + destruct (split sep s) as [| first others]; [destruct Hpiece |].
      destruct Hpiece as [<- | Hpiece].
      * exists (x :: first). split; [now left | now right].
      * exists piece. split; [now right | exact Hc].
Qed.

Lemma includes_In (c : codeunit) (s : jsstring) : includes c s = true <-> In c s.
Proof.
  unfold includes. rewrite existsb_exists. split.
  - intros [x [Hin Hx]]. apply N.eqb_eq in Hx. now subst.
  - intros Hin. exists c. split; [exact Hin | apply N.eqb_refl].
Qed.

Lemma isNaN_roundToDouble (n : Z) : isNaN (roundToDouble n) = false.
Proof.
  unfold roundToDouble.
  destruct (n <? 2 ^ 53); [reflexivity |].
  match goal with |- context [if ?c then Num _ else PInf] => destruct c end;
    reflexivity.
Qed.

Lemma digit_not_sign (c : codeunit) :
  isDigit c = true -> (c =? hyphen)%N = false /\ (c =? plus)%N = false.
Proof.
  unfold isDigit, hyphen, plus. intros Hd.
  apply andb_true_iff in Hd as [H1 H2].
  apply N.leb_le in H1, H2. split; apply N.eqb_neq; lia.
Qed.

(** [parseInt] reads a number as soon as the first character after the
    leading white space is a digit. *)
Lemma parseInt_reads_digit (s r : jsstring) (c : codeunit) :
  trimStart s = c :: r -> isDigit c = true -> isNaN (parseInt s) = false.
Proof.
  intros Hstart Hd. unfold parseInt. rewrite Hstart.
  destruct (digit_not_sign c Hd) as [-> ->].
  cbn [takeWhile]. rewrite Hd. apply isNaN_roundToDouble.
Qed.

(** Among the characters of the character test, a digit is what is
    neither white space, nor a hyphen, nor a comma. *)
Lemma allowedChar_digit (c : codeunit) :
  allowedChar c = true -> isWhiteSpace c = false ->
  c <> hyphen -> c <> comma -> isDigit c = true.
Proof.
  unfold allowedChar. intros Hal Hws Hh Hc.
  apply N.eqb_neq in Hh, Hc. rewrite Hws, Hh, Hc in Hal.
  now rewrite !orb_false_r in Hal.
Qed.

(** The characters of a token of a selection that passes the character
    test: allowed, and no comma. *)
Lemma token_chars (selection part : jsstring) (c : codeunit) :
  regexTest selection = true -> In part (tokens selection) -> In c part ->
  allowedChar c = true /\ c <> comma.
Proof.
  unfold regexTest, tokens. intros Hre Hpart Hc.
  apply andb_true_iff in Hre as [_ Hall]. rewrite forallb_forall in Hall.
  apply in_map_iff in Hpart as [piece [<- Hpiece]].
  apply trim_incl in Hc. split.
  - apply Hall. eapply split_incl; eassumption.
  - intros ->. exact (split_no_separator _ _ _ Hpiece Hc).
Qed.

End CharFacts.

(* ================================================================== *)
(** ** The range parser: tokens and the selection they come from       *)
(* ================================================================== *)

Lemma strictly_sorted_ext (l1 : list Z) :
  forall l2,
  StronglySorted Z.lt l1 -> StronglySorted Z.lt l2 ->
  (forall p, In p l1 <-> In p l2) -> l1 = l2.
Proof.
  induction l1 as [| x l1 IH]; intros l2 H1 H2 Hext.
  - destruct l2 as [| y l2]; [reflexivity |].
    destruct (proj2 (Hext y) (or_introl eq_refl)).
  - destruct l2 as [| y l2].
    + destruct (proj1 (Hext x) (or_introl eq_refl)).
    + inversion H1 as [| ? ? H1' Hx]; subst.
      inversion H2 as [| ? ? H2' Hy]; subst.
      rewrite Forall_forall in Hx, Hy.
      assert (Hxy : x = y).
      { destruct (proj1 (Hext x) (or_introl eq_refl)) as [E | Hin]; [now subst |].
        destruct (proj2 (Hext y) (or_introl eq_refl)) as [E | Hin']; [now subst |].
        specialize (Hx _ Hin'). specialize (Hy _ Hin). lia. }
      subst y. f_equal. apply IH; try assumption.
      intros p. split; intros Hp.
      * destruct (proj1 (Hext p) (or_intror Hp)) as [E | Hin]; [| exact Hin].
        specialize (Hx _ Hp). lia.
      * destruct (proj2 (Hext p) (or_intror Hp)) as [E | Hin]; [| exact Hin].
        specialize (Hy _ Hp). lia.
Qed.

Lemma accepted_token_nonempty (totalPages : Z) (part : jsstring) (s : NumSet) :
  processPart totalPages [] part = Return s -> part <> [].
Proof. intros H ->. discriminate. Qed.

Lemma selection_allowed (selection : jsstring) :
  selection <> [] ->
  (forall part c, In part (tokens selection) -> In c part -> allowedChar c = true) ->
  regexTest selection = true.
Proof.
  intros Hne Htok. unfold regexTest.
  apply isEmpty_false in Hne. rewrite Hne. simpl.
  apply forallb_forall. intros c Hc.
  destruct (split_covers comma _ _ Hc) as [-> | [piece [Hpiece Hin]]];
    [reflexivity |].
  destruct (isWhiteSpace c) eqn:Hws.
  - unfold allowedChar. rewrite Hws. now rewrite !orb_true_r.
  - apply (Htok (trim piece)).
    + unfold tokens. now apply in_map.
    + now apply trim_keeps.
Qed.

Lemma selection_nonblank (selection part : jsstring) :
  In part (tokens selection) -> part <> [] -> trim selection <> [].
Proof.
  unfold tokens. intros Hpart Hne.
  apply in_map_iff in Hpart as [piece [<- Hpiece]].
  destruct (trim piece) as [| c r] eqn:Htrim; [congruence |].
  assert (Hws := trim_head _ _ _ Htrim).
  assert (Hin : In c selection).
  { apply (split_incl comma _ piece); [exact Hpiece |].
    apply trim_incl. rewrite Htrim. now left. }
  intros Hnil. apply (trim_keeps _ _ Hin) in Hws. now rewrite Hnil in Hws.
Qed.

(** X7.  The order of the tokens does not matter: when a selection is
    accepted, any selection with the same tokens in another order is
    accepted too, with the same pages. *)
Theorem token_order_irrelevant (selection selection' : jsstring)
    (totalPages : Z) (pages : list Z) :
  Permutation (tokens selection) (tokens selection') ->
  parsePageRanges selection totalPages = Return pages ->
  parsePageRanges selection' totalPages = Return pages.
Proof.
  intros Hperm Hret.
  destruct (parsePageRanges_Return_set _ _ _ Hret)
    as (set & Hloop & Hpages & _ & Hsorted & _ & _).
  apply parsePageRanges_Return_iff in Hret as (_ & Hre & _).
  assert (Hacc : Forall (fun part => exists s, processPart totalPages [] part = Return s)
                   (tokens selection')).
  { eapply Permutation_Forall; [exact Hperm |].
    apply (processParts_accepts totalPages _ []). now exists set. }
  destruct (proj2 (processParts_accepts totalPages _ []) Hacc) as [set' Hloop'].
  assert (Hblank' : trim selection' <> []).
  { destruct (tokens selection') as [| part parts] eqn:Htok.
    - elim (tokens_nonempty _ Htok).
    - apply (selection_nonblank _ part); [rewrite Htok; now left |].
      inversion Hacc as [| ? ? [s Hs] _]; subst.
      eapply accepted_token_nonempty; eassumption. }
  assert (Hre' : regexTest selection' = true).
  { apply selection_allowed.
    - apply isEmpty_false. now apply trim_nonblank_nonempty.
    - intros part c Hpart Hc.
      apply (Permutation_in _ (Permutation_sym Hperm)) in Hpart.
      now apply (token_chars selection part c). }
  assert (Hret' : parsePageRanges selection' totalPages
                  = Return (sort (fun a b => a - b) set')).
  { apply parsePageRanges_Return_iff. repeat split; try assumption. now exists set'. }
  rewrite Hret'. f_equal.
  destruct (parsePageRanges_Return_set _ _ _ Hret')
    as (set'' & Hloop'' & Hpages' & _ & Hsorted' & _ & _).
  rewrite Hloop' in Hloop''. injection Hloop'' as <-.
  apply strictly_sorted_ext; try assumption.
  intros p.
  assert (H1 := processParts_In totalPages _ _ _ Hloop p).
  assert (H2 := processParts_In totalPages _ _ _ Hloop' p).
  split; intros Hp.
  - apply (Permutation_in _ Hpages') in Hp. apply H2 in Hp as [[] | [part [Hin Hc]]].
    apply (Permutation_in _ (Permutation_sym Hpages)). apply H1. right.
    exists part. split; [| exact Hc].
    now apply (Permutation_in _ (Permutation_sym Hperm)).
  - apply (Permutation_in _ Hpages) in Hp. apply H1 in Hp as [[] | [part [Hin Hc]]].
    apply (Permutation_in _ (Permutation_sym Hpages')). apply H2. right.
    exists part. split; [| exact Hc].
    now apply (Permutation_in _ Hperm).
Qed.

Lemma token_order_irrelevant_witness :
  Permutation (tokens (js "5, 1-2,3")) (tokens (js "3,5 ,1-2"))
  /\ parsePageRanges (js "5, 1-2,3") 6 = Return [1; 2; 3; 5]
  /\ parsePageRanges (js "3,5 ,1-2") 6 = Return [1; 2; 3; 5].
Proof.
  assert (Hperm : Permutation (tokens (js "5, 1-2,3")) (tokens (js "3,5 ,1-2"))).
  { change (Permutation [js "5"; js "1-2"; js "3"] [js "3"; js "5"; js "1-2"]).
    apply Permutation_sym, (Permutation_cons_append [js "5"; js "1-2"] (js "3")). }
  split; [exact Hperm |]. split; [reflexivity |].
  exact (token_order_irrelevant (js "5, 1-2,3") (js "3,5 ,1-2") 6 [1; 2; 3; 5]
           Hperm eq_refl).
Defined.

Lemma token_head_digit (selection part r : jsstring) (c : codeunit) :
  regexTest selection = true -> In part (tokens selection) ->
  includes hyphen part = false -> part = c :: r -> isDigit c = true.
Proof.
  intros Hre Hpart Hhyphen ->.
  destruct (token_chars _ _ c Hre Hpart (or_introl eq_refl)) as [Hal Hcomma].
  apply allowedChar_digit; try assumption.
  - unfold tokens in Hpart. apply in_map_iff in Hpart as [piece [Htrim _]].
    exact (trim_head _ _ _ Htrim).
  - intros ->. apply not_true_iff_false in Hhyphen. apply Hhyphen.
    apply includes_In. now left.
Qed.

(** X8.  In a selection that passes the character test, a token without
    hyphen is reported as [error_pageSelection_invalidNumber] exactly when
    it is empty: two commas in a row, or a comma at either end. *)
Theorem invalidNumber_iff_empty_token (selection part : jsstring)
    (totalPages : Z) (pageNumbers : NumSet) :
  regexTest selection = true ->
  In part (tokens selection) ->
  includes hyphen part = false ->
  (processPart totalPages pageNumbers part = Throw error_pageSelection_invalidNumber
   <-> part = []).
Proof.
  intros Hre Hpart Hhyphen. split.
  - destruct part as [| c r] eqn:Hshape; [reflexivity |]. rewrite <- Hshape in *.
    assert (Hd : isDigit c = true)
      by exact (token_head_digit _ _ _ _ Hre Hpart Hhyphen Hshape).
    assert (Hnan : isNaN (parseInt part) = false).
    { apply (parseInt_reads_digit part r c); [| exact Hd].
      unfold tokens in Hpart. apply in_map_iff in Hpart as [piece [Htrim _]].
      rewrite Hshape in Htrim. apply trim_head in Htrim.
      rewrite Hshape. unfold trimStart. simpl. now rewrite Htrim. }
    unfold processPart. rewrite Hhyphen, Hnan.
    destruct (num_lt _ _ || num_gt _ _); [discriminate |].
    destruct (parseInt part); discriminate.
  - intros ->. reflexivity.
Qed.

Lemma invalidNumber_iff_empty_token_witness :
  regexTest (js "1,,2") = true
  /\ In [] (tokens (js "1,,2"))
  /\ includes hyphen [] = false
  /\ (processPart 5 [1] [] = Throw error_pageSelection_invalidNumber
      <-> @nil codeunit = []).
Proof.
  assert (Hin : In [] (tokens (js "1,,2"))) by (right; left; reflexivity).
  split; [reflexivity |]. split; [exact Hin |]. split; [reflexivity |].
  exact (invalidNumber_iff_empty_token (js "1,,2") [] 5 [1] eq_refl Hin eq_refl).
Defined.

(** X9.  In a selection that passes the character test, the two pieces of
    a range token always parse as numbers once neither is blank: the second
    [error_pageSelection_invalidRangeFormat] guard, the one on NaN, never
    fires. *)
Theorem range_pieces_always_parse (selection part a b : jsstring) :
  regexTest selection = true ->
  In part (tokens selection) ->
  split hyphen part = [a; b] ->
  trim a <> [] -> trim b <> [] ->
  isNaN (parseInt a) || isNaN (parseInt b) = false.
Proof.
  intros Hre Hpart Hsplit Ha Hb.
  assert (Hpiece : forall x, In x (split hyphen part) -> trim x <> [] ->
                     isNaN (parseInt x) = false).
  { intros x Hx Hne. apply trimStart_nonblank in Hne.
    destruct (trimStart x) as [| c r] eqn:Hstart; [congruence |].
    apply (parseInt_reads_digit x r c Hstart).
    assert (Hc : In c x).
    { apply (dropWhile_incl isWhiteSpace). fold (trimStart x).
      rewrite Hstart. now left. }
    destruct (token_chars _ _ c Hre Hpart (split_incl _ _ _ _ Hx Hc)) as [Hal Hcomma].
    apply allowedChar_digit; try assumption.
    - exact (dropWhile_head _ _ _ _ Hstart).
    - intros ->. exact (split_no_separator _ _ _ Hx Hc). }
  rewrite Hsplit in Hpiece.
  rewrite (Hpiece a (or_introl eq_refl) Ha).
  rewrite (Hpiece b (or_intror (or_introl eq_refl)) Hb). reflexivity.
Qed.

Lemma range_pieces_always_parse_witness :
  regexTest (js "9, 2 - 4 5") = true
  /\ In (js "2 - 4 5") (tokens (js "9, 2 - 4 5"))
  /\ split hyphen (js "2 - 4 5") = [js "2 "; js " 4 5"]
  /\ trim (js "2 ") <> [] /\ trim (js " 4 5") <> []
  /\ isNaN (parseInt (js "2 ")) || isNaN (parseInt (js " 4 5")) = false.
Proof.
  assert (Hin : In (js "2 - 4 5") (tokens (js "9, 2 - 4 5")))
    by (right; left; reflexivity).
  assert (Ha : trim (js "2 ") <> []) by discriminate.
  assert (Hb : trim (js " 4 5") <> []) by discriminate.
  split; [reflexivity |]. split; [exact Hin |]. split; [reflexivity |].
  split; [exact Ha |]. split; [exact Hb |].
  exact (range_pieces_always_parse (js "9, 2 - 4 5") (js "2 - 4 5")
           (js "2 ") (js " 4 5") eq_refl Hin eq_refl Ha Hb).
Defined.

Lemma processParts_app (totalPages : Z) (parts parts' : list jsstring) :
  forall pageNumbers,
  processParts totalPages pageNumbers (parts ++ parts')
  = match processParts totalPages pageNumbers parts with
    | Throw e => Throw e
    | Return pageNumbers' => processParts totalPages pageNumbers' parts'
    end.
Proof.
  induction parts as [| part parts IH]; intros s; simpl.
  - reflexivity.
  - destruct (processPart totalPages s part); [apply IH | reflexivity].
Qed.

(** X10.  The error the parser reports is the one of the leftmost token it
    rejects: tokens to its left that are accepted, and whatever stands to
    its right, do not change it. *)
Theorem leftmost_rejected_token_decides (selection : jsstring) (totalPages : Z)
    (accepted : list jsstring) (part : jsstring) (rest : list jsstring)
    (e : error) :
  trim selection <> [] ->
  regexTest selection = true ->
  tokens selection = accepted ++ part :: rest ->
  Forall (fun t => exists s, processPart totalPages [] t = Return s) accepted ->
  processPart totalPages [] part = Throw e ->
  parsePageRanges selection totalPages = Throw e.
Proof.
  intros Hblank Hre Htok Hacc Hrej.
  unfold parsePageRanges. fold (tokens selection).
  rewrite (trim_nonblank_nonempty _ Hblank).
  apply isEmpty_false in Hblank. rewrite Hblank, Hre, Htok. simpl.
  rewrite processParts_app.
  destruct (proj2 (processParts_accepts totalPages accepted []) Hacc) as [set Hset].
  rewrite Hset. simpl.
  destruct (processPart_cases totalPages part) as [[e' He] | (lo & hi & _ & _ & _ & _ & Hok)].
  - rewrite He in Hrej. injection Hrej as ->. now rewrite He.
  - rewrite Hok in Hrej. discriminate.
Qed.

Lemma leftmost_rejected_token_decides_witness :
  trim (js "2,5-3,99") <> []
  /\ regexTest (js "2,5-3,99") = true
  /\ tokens (js "2,5-3,99") = [js "2"] ++ js "5-3" :: [js "99"]
  /\ Forall (fun t => exists s, processPart 9 [] t = Return s) [js "2"]
  /\ processPart 9 [] (js "5-3") = Throw error_pageSelection_invalidRangeOrder
  /\ parsePageRanges (js "2,5-3,99") 9 = Throw error_pageSelection_invalidRangeOrder.
Proof.
  assert (Hacc : Forall (fun t => exists s, processPart 9 [] t = Return s) [js "2"]).
  { constructor; [| constructor]. exists [2]. reflexivity. }
  split; [discriminate |]. split; [reflexivity |]. split; [reflexivity |].
  split; [exact Hacc |]. split; [reflexivity |].
  apply (leftmost_rejected_token_decides (js "2,5-3,99") 9 [js "2"] (js "5-3") [js "99"]).
  - discriminate.
  - reflexivity.
  - reflexivity.
  - exact Hacc.
  - reflexivity.
Defined.

(* ================================================================== *)
(** ** The extraction pipeline: more of what a run shows               *)
(* ================================================================== *)

Section PipelineMore.

Context {pdflib : PdfLib} {binary64 : Binary64}.

Lemma completed_yielded (fileBuffer : ArrayBuffer)
    (pagesToExtract : option jsstring) (src : PDFDocument) (indices : list Z) :
  load fileBuffer = Some src ->
  pageIndicesToProcess (getPageCount src) pagesToExtract = Return indices ->
  yielded (fst (pdfProcessor fileBuffer pagesToExtract))
  = map (pageResult src) indices.
Proof.
  intros Hload Htargets.
  rewrite (pdfProcessor_completes _ _ _ _ Hload Htargets). cbn [fst].
  set (n := Z.of_nat (List.length indices)).
  change (yielded (fst (pageLoop src n 0 indices) ++ [Progress (doneSnapshot n)])
          = map (pageResult src) indices).
  rewrite yielded_app, pageLoop_yielded. apply app_nil_r.
Qed.

(** The events of the page loop, two by two. *)
Lemma pageLoop_nth (src : PDFDocument) (n : Z) (rest : list Z) :
  forall (i : Z) (k : nat) (index : Z),
  nth_error rest k = Some index ->
  nth_error (fst (pageLoop src n i rest)) (2 * k)
  = Some (Progress {| stage := SPLITTING;
                      overallProgress := progressAfter (i + Z.of_nat k) n;
                      processedPages := i + Z.of_nat k + 1;
                      totalPages := None |})
  /\ nth_error (fst (pageLoop src n i rest)) (2 * k + 1)
     = Some (Yield (pageResult src index)).
Proof.
  induction rest as [| pageIndex rest IH]; intros i k index Hk.
  - destruct k; discriminate.
  - rewrite pageLoop_cons. cbn [fst]. destruct k as [| k].
    + injection Hk as <-. simpl. rewrite Z.add_0_r. split; reflexivity.
    + simpl in Hk. destruct (IH (i + 1) k index Hk) as [H1 H2].
      replace (2 * S k)%nat with (S (S (2 * k))) by lia.
      replace (i + Z.of_nat (S k)) with (i + 1 + Z.of_nat k) by lia.
      split; [exact H1 | exact H2].
Qed.

Lemma pageLoop_length (src : PDFDocument) (n : Z) (rest : list Z) :
  forall i, List.length (fst (pageLoop src n i rest)) = (2 * List.length rest)%nat.
Proof.
  induction rest as [| pageIndex rest IH]; intros i.
  - reflexivity.
  - rewrite pageLoop_cons. cbn [fst List.length]. rewrite IH. lia.
Qed.

Lemma pageLoop_snapshots (src : PDFDocument) (n : Z) (rest : list Z) :
  forall i,
  reported (fst (pageLoop src n i rest))
  = map (fun k => {| stage := SPLITTING;
                     overallProgress := progressAfter (i + Z.of_nat k) n;
                     processedPages := i + Z.of_nat k + 1;
                     totalPages := None |})
        (seq 0 (List.length rest)).
Proof.
  induction rest as [| pageIndex rest IH]; intros i.
  - reflexivity.
  - rewrite pageLoop_cons. simpl. rewrite IH, Z.add_0_r. f_equal.
    rewrite <- seq_shift, map_map. apply map_ext. intros k.
    replace (i + 1 + Z.of_nat k) with (i + Z.of_nat (S k)) by lia. reflexivity.
Qed.

(** X11.  With a selection that the parser accepts, the run ends normally
    and the page numbers of the outcomes it yields are the parser's pages,
    in the parser's order: taking one off each page for pdf-lib and adding
    it back in the outcome loses nothing. *)
Theorem selection_pages_are_yielded (fileBuffer : ArrayBuffer)
    (selection : jsstring) (src : PDFDocument) (pages : list Z) :
  load fileBuffer = Some src ->
  parsePageRanges selection (getPageCount src) = Return pages ->
  snd (pdfProcessor fileBuffer (Some selection)) = Return tt
  /\ map pageNumber (yielded (fst (pdfProcessor fileBuffer (Some selection)))) = pages.
Proof.
  intros Hload Hparse.
  assert (Htargets : pageIndicesToProcess (getPageCount src) (Some selection)
                     = Return (map (fun p => p - 1) pages)).
  { destruct selection as [| c s]; [discriminate |]. simpl. now rewrite Hparse. }
  rewrite (completed_yielded _ _ _ _ Hload Htargets).
  rewrite (pdfProcessor_completes _ _ _ _ Hload Htargets).
  split; [reflexivity |].
  rewrite !map_map. rewrite <- (map_id pages) at 2.
  apply map_ext. intros p. simpl. lia.
Qed.

(** X12.  In a run that loads and whose targets resolve, the k-th outcome
    comes directly after the snapshot that reports k pages processed: the
    events are the two opening snapshots, then for each target its
    SPLITTING snapshot followed by its outcome, then the DONE snapshot, and
    nothing else. *)
Theorem progress_then_outcome (fileBuffer : ArrayBuffer)
    (pagesToExtract : option jsstring) (src : PDFDocument) (indices : list Z)
    (k : nat) (index : Z) :
  load fileBuffer = Some src ->
  pageIndicesToProcess (getPageCount src) pagesToExtract = Return indices ->
  nth_error indices k = Some index ->
  let events := fst (pdfProcessor fileBuffer pagesToExtract) in
  let N := Z.of_nat (List.length indices) in
  List.length events = (2 * List.length indices + 3)%nat
  /\ nth_error events (2 * k + 2)
     = Some (Progress {| stage := SPLITTING;
                         overallProgress := progressAfter (Z.of_nat k) N;
                         processedPages := Z.of_nat k + 1;
                         totalPages := None |})
  /\ nth_error events (2 * k + 3) = Some (Yield (pageResult src index)).
Proof.
  intros Hload Htargets Hk events N. subst events.
  rewrite (pdfProcessor_completes _ _ _ _ Hload Htargets). cbn [fst]. fold N.
  assert (Hlen := pageLoop_length src N indices 0).
  destruct (pageLoop_nth src N indices 0 k index Hk) as [H1 H2].
  assert (Hk' : (k < List.length indices)%nat).
  { apply nth_error_Some. congruence. }
  split; [| split].
  - cbn [List.length]. rewrite length_app, Hlen. simpl. lia.
  - replace (2 * k + 2)%nat with (S (S (2 * k))) by lia. cbn [nth_error].
    rewrite nth_error_app1 by lia. exact H1.
  - replace (2 * k + 3)%nat with (S (S (2 * k + 1))) by lia. cbn [nth_error].
    rewrite nth_error_app1 by lia. exact H2.
Qed.

(** X13.  In a run that loads and whose targets resolve, the snapshots
    report 0, 0, then 1, 2, ..., N pages processed, then N; only the second
    one carries [totalPages], and it is the number of targets. *)
Theorem processedPages_counts_up (fileBuffer : ArrayBuffer)
    (pagesToExtract : option jsstring) (src : PDFDocument) (indices : list Z) :
  load fileBuffer = Some src ->
  pageIndicesToProcess (getPageCount src) pagesToExtract = Return indices ->
  let snapshots := reported (fst (pdfProcessor fileBuffer pagesToExtract)) in
  let n := List.length indices in
  map processedPages snapshots
  = 0 :: 0 :: map Z.of_nat (seq 1 n) ++ [Z.of_nat n]
  /\ map stage snapshots = ANALYZING :: SPLITTING :: repeat SPLITTING n ++ [DONE]
  /\ map totalPages snapshots
     = None :: Some (Z.of_nat n) :: repeat None n ++ [None].
Proof.
  intros Hload Htargets snapshots n. subst snapshots.
  rewrite (pdfProcessor_completes _ _ _ _ Hload Htargets). cbn [fst]. fold n.
  assert (Hrep : reported (Progress analyzingSnapshot
                   :: Progress (splittingSnapshot (Z.of_nat n))
                   :: fst (pageLoop src (Z.of_nat n) 0 indices)
                   ++ [Progress (doneSnapshot (Z.of_nat n))])
                 = analyzingSnapshot :: splittingSnapshot (Z.of_nat n)
                   :: reported (fst (pageLoop src (Z.of_nat n) 0 indices))
                   ++ [doneSnapshot (Z.of_nat n)]).
  { change (analyzingSnapshot :: splittingSnapshot (Z.of_nat n)
            :: reported (fst (pageLoop src (Z.of_nat n) 0 indices)
                         ++ [Progress (doneSnapshot (Z.of_nat n))])
            = analyzingSnapshot :: splittingSnapshot (Z.of_nat n)
              :: reported (fst (pageLoop src (Z.of_nat n) 0 indices))
              ++ [doneSnapshot (Z.of_nat n)]).
    now rewrite reported_app. }
  rewrite Hrep, pageLoop_snapshots. fold n.
  cbn [map]. rewrite !map_app, !map_map. cbn [map stage processedPages totalPages
    analyzingSnapshot splittingSnapshot doneSnapshot].
  assert (Hconst : forall (A : Type) (x : A) (m a : nat),
            map (fun _ : nat => x) (seq a m) = repeat x m).
  { intros A x m. induction m as [| m IH]; intros a; simpl; [reflexivity |].
    f_equal. apply IH. }
  split; [| split].
  - rewrite <- seq_shift, map_map.
    rewrite (map_ext (fun x => 0 + Z.of_nat x + 1) (fun x => Z.of_nat (S x)));
      [reflexivity | intros k; lia].
  - now rewrite Hconst.
  - now rewrite Hconst.
Qed.

End PipelineMore.

Section PipelineOutcomes.

Context {pdflib : PdfLib} {binary64 : Binary64}.

Lemma pageResult_shape (src : PDFDocument) (pageIndex : Z) :
  (status (pageResult src pageIndex) = OK
   /\ exists pageBytes,
        blob (pageResult src pageIndex) = Some (mkBlob pageBytes "application/pdf")
        /\ finalSize (pageResult src pageIndex) = Z.of_nat (List.length pageBytes))
  \/ (status (pageResult src pageIndex) = ERROR
      /\ blob (pageResult src pageIndex) = None
      /\ finalSize (pageResult src pageIndex) = 0).
Proof.
  unfold pageResult, tryBlock.
  destruct (extractPage src pageIndex) as [d |]; [| right; repeat split].
  destruct (save d) as [pageBytes |]; [| right; repeat split].
  left. split; [reflexivity |]. exists pageBytes. split; reflexivity.
Qed.

Lemma yielded_inv (fileBuffer : ArrayBuffer) (pagesToExtract : option jsstring)
    (r : PageResult) :
  In r (yielded (fst (pdfProcessor fileBuffer pagesToExtract))) ->
  exists src index, load fileBuffer = Some src /\ r = pageResult src index.
Proof.
  destruct (load fileBuffer) as [src |] eqn:Hload.
  - destruct (pageIndicesToProcess (getPageCount src) pagesToExtract)
      as [indices | e] eqn:Htargets.
    + rewrite (completed_yielded _ _ _ _ Hload Htargets).
      intros Hin. apply in_map_iff in Hin as [index [<- _]].
      exists src, index. split; reflexivity.
    + rewrite (pdfProcessor_targets_fail _ _ _ _ Hload Htargets). intros [].
  - rewrite (pdfProcessor_load_fails _ _ Hload). intros [].
Qed.

(** X14.  Whatever the request, an outcome the pipeline yields is of one
    of two shapes: status OK with a blob of type application/pdf whose
    length is [finalSize], or status ERROR with no blob and [finalSize] 0.
    A blob is there exactly when the status is OK. *)
Theorem outcome_shape (fileBuffer : ArrayBuffer)
    (pagesToExtract : option jsstring) (r : PageResult) :
  In r (yielded (fst (pdfProcessor fileBuffer pagesToExtract))) ->
  (status r = OK
   /\ exists pageBytes,
        blob r = Some (mkBlob pageBytes "application/pdf")
        /\ finalSize r = Z.of_nat (List.length pageBytes))
  \/ (status r = ERROR /\ blob r = None /\ finalSize r = 0).
Proof.
  intros Hin. destruct (yielded_inv _ _ _ Hin) as (src & index & _ & ->).
  apply pageResult_shape.
Qed.

(** X15.  A selection made of white space only, at least one character of
    it, is not taken for an absent one: once the document has loaded the
    run throws [error_pageSelection_empty] before any outcome. *)
Theorem blank_selection_aborts (fileBuffer : ArrayBuffer)
    (selection : jsstring) (src : PDFDocument) :
  load fileBuffer = Some src ->
  selection <> [] ->
  trim selection = [] ->
  pdfProcessor fileBuffer (Some selection)
  = ([Progress analyzingSnapshot], Throw error_pageSelection_empty).
Proof.
  intros Hload Hne Hblank.
  apply (pdfProcessor_targets_fail _ _ src); [exact Hload |].
  destruct selection as [| c s]; [congruence |].
  unfold pageIndicesToProcess, parsePageRanges. rewrite Hblank. reflexivity.
Qed.

(** X16.  Over a document without pages, every selection that is not the
    empty string makes the run throw before any outcome: no selection
    can be accepted there. *)
Theorem no_pages_selection_aborts (fileBuffer : ArrayBuffer)
    (selection : jsstring) (src : PDFDocument) :
  load fileBuffer = Some src ->
  getPageCount src <= 0 ->
  selection <> [] ->
  exists e,
    pdfProcessor fileBuffer (Some selection)
    = ([Progress analyzingSnapshot], Throw e).
Proof.
  intros Hload Hcount Hne.
  destruct (parsePageRanges selection (getPageCount src)) as [pages | e] eqn:Hparse.
  - exfalso.
    destruct (parsePageRanges_Return_set _ _ _ Hparse)
      as (set & _ & _ & _ & _ & Hin & Hnil).
    destruct pages as [| p pages]; [congruence |].
    inversion Hin as [| ? ? Hp _]; subst. lia.
  - exists e. apply (pdfProcessor_targets_fail _ _ src); [exact Hload |].
    destruct selection as [| c s]; [congruence |].
    simpl. now rewrite Hparse.
Qed.

Lemma indicesUpTo_sorted (n : Z) :
  StronglySorted Z.lt (indicesUpTo n)
  /\ Forall (fun i => 0 <= i < n) (indicesUpTo n).
Proof.
  unfold indicesUpTo.
  assert (Hgen : forall m a,
            StronglySorted Z.lt (map Z.of_nat (seq a m))
            /\ Forall (fun i => Z.of_nat a <= i < Z.of_nat (a + m)) (map Z.of_nat (seq a m))).
  { intros m. induction m as [| m IH]; intros a; simpl.
    - split; constructor.
    - destruct (IH (S a)) as [Hs Hf]. split.
      + constructor; [exact Hs |].
        eapply Forall_impl; [| exact Hf]. simpl. intros i Hi. lia.
      + constructor; [lia |].
        eapply Forall_impl; [| exact Hf]. simpl. intros i Hi. lia. }
  destruct (Hgen (Z.to_nat n) 0%nat) as [Hs Hf]. split; [exact Hs |].
  eapply Forall_impl; [| exact Hf]. simpl. intros i Hi. lia.
Qed.

End PipelineOutcomes.

Lemma StronglySorted_map_lt (f : Z -> Z) (l : list Z) :
  (forall a b, a < b -> f a < f b) ->
  StronglySorted Z.lt l -> StronglySorted Z.lt (map f l).
Proof.
  intros Hf. induction 1 as [| x l Hl IH Hall]; simpl; constructor.
  - exact IH.
  - apply Forall_map. eapply Forall_impl; [| exact Hall]. intros y. apply Hf.
Qed.

Lemma targets_sorted_inside (n : Z) (pagesToExtract : option jsstring)
    (indices : list Z) :
  pageIndicesToProcess n pagesToExtract = Return indices ->
  StronglySorted Z.lt indices /\ Forall (fun i => 0 <= i < n) indices.
Proof.
  unfold pageIndicesToProcess.
  destruct pagesToExtract as [[| c s] |];
    try (intros [= <-]; apply indicesUpTo_sorted).
  destruct (parsePageRanges (c :: s) n) as [pages | e] eqn:Hparse; [| discriminate].
  intros [= <-].
  destruct (parsePageRanges_Return_set _ _ _ Hparse)
    as (set & _ & _ & _ & Hsorted & Hin & _).
  split.
  - apply StronglySorted_map_lt; [intros; lia | exact Hsorted].
  - apply Forall_map. eapply Forall_impl; [| exact Hin]. simpl. intros p Hp. lia.
Qed.

Section PipelineOrder.

Context {pdflib : PdfLib} {binary64 : Binary64}.

(** X17.  In a run that loads and whose targets resolve, with or without
    a selection, every index handed to pdf-lib is a page of the document,
    and the outcomes come in strictly ascending page number, each between
    1 and the page count. *)
Theorem targets_inside_and_ascending (fileBuffer : ArrayBuffer)
    (pagesToExtract : option jsstring) (src : PDFDocument) (indices : list Z) :
  load fileBuffer = Some src ->
  pageIndicesToProcess (getPageCount src) pagesToExtract = Return indices ->
  Forall (fun i => 0 <= i < getPageCount src) indices
  /\ StronglySorted Z.lt
       (map pageNumber (yielded (fst (pdfProcessor fileBuffer pagesToExtract))))
  /\ Forall (fun r => 1 <= pageNumber r <= getPageCount src)
       (yielded (fst (pdfProcessor fileBuffer pagesToExtract))).
Proof.
  intros Hload Htargets.
  destruct (targets_sorted_inside _ _ _ Htargets) as [Hsorted Hin].
  rewrite (completed_yielded _ _ _ _ Hload Htargets).
  split; [exact Hin |]. split.
  - rewrite map_map. simpl. apply StronglySorted_map_lt; [intros; lia | exact Hsorted].
  - apply Forall_map. eapply Forall_impl; [| exact Hin]. simpl. intros i Hi. lia.
Qed.

End PipelineOrder.

(* ================================================================== *)
(** ** App.tsx: what the consumer makes of the outcomes                *)
(* ================================================================== *)

Lemma StronglySorted_prefix {A : Type} (R : A -> A -> Prop) (l1 l2 : list A) :
  StronglySorted R (l1 ++ l2) -> StronglySorted R l1.
Proof.
  induction l1 as [| x l1 IH]; simpl; intros H.
  - constructor.
  - inversion H as [| ? ? H' Hall]; subst. constructor; [now apply IH |].
    apply Forall_app in Hall. apply Hall.
Qed.

Lemma sortResults_sorted (l : list PageResult) :
  StronglySorted (fun a b => pageNumber a <= pageNumber b) l ->
  App.sortResults l = l.
Proof.
  induction 1 as [| x l Hl IH Hall].
  - reflexivity.
  - change (App.insertResult x (App.sortResults l) = x :: l). rewrite IH.
    destruct l as [| y l]; [reflexivity |]. simpl.
    inversion Hall as [| ? ? Hxy _]; subst.
    replace (pageNumber x - pageNumber y <=? 0) with true; [reflexivity |].
    symmetry. apply Z.leb_le. lia.
Qed.

Lemma collectResults_sorted (suffix : list PageResult) :
  forall held,
  StronglySorted (fun a b => pageNumber a <= pageNumber b) (held ++ suffix) ->
  fold_left App.pushResult suffix held = held ++ suffix.
Proof.
  induction suffix as [| r suffix IH]; intros held Hsorted; simpl.
  - now rewrite app_nil_r.
  - unfold App.pushResult at 2.
    replace (held ++ r :: suffix) with ((held ++ [r]) ++ suffix) in *
      by (rewrite <- app_assoc; reflexivity).
    rewrite (sortResults_sorted (held ++ [r]));
      [| eapply StronglySorted_prefix; exact Hsorted].
    now apply IH.
Qed.

Lemma StronglySorted_pageNumber (l : list PageResult) :
  StronglySorted Z.lt (map pageNumber l) ->
  StronglySorted (fun a b => pageNumber a <= pageNumber b) l.
Proof.
  induction l as [| x l IH]; simpl; intros H.
  - constructor.
  - inversion H as [| ? ? H' Hall]; subst. constructor; [now apply IH |].
    rewrite Forall_map in Hall. eapply Forall_impl; [| exact Hall].
    simpl. intros y Hy. lia.
Qed.

Section AppFacts.

Context {pdflib : PdfLib} {binary64 : Binary64}.

(** X18.  [handleStartProcessing] sorts its results by page number after
    each outcome it receives; on a run that loads and whose targets
    resolve this never moves anything: what it holds at the end is what
    the pipeline yielded, in the pipeline's order. *)
Theorem collected_results_are_the_outcomes (fileBuffer : ArrayBuffer)
    (pagesToExtract : option jsstring) (src : PDFDocument) (indices : list Z) :
  load fileBuffer = Some src ->
  pageIndicesToProcess (getPageCount src) pagesToExtract = Return indices ->
  App.collectResults (yielded (fst (pdfProcessor fileBuffer pagesToExtract)))
  = yielded (fst (pdfProcessor fileBuffer pagesToExtract)).
Proof.
  intros Hload Htargets.
  destruct (targets_sorted_inside _ _ _ Htargets) as [Hsorted _].
  rewrite (completed_yielded _ _ _ _ Hload Htargets).
  unfold App.collectResults.
  apply (collectResults_sorted _ []). simpl.
  apply StronglySorted_pageNumber. rewrite map_map. simpl.
  apply StronglySorted_map_lt; [intros; lia | exact Hsorted].
Qed.

(** X19.  The results [handleDownloadZip] puts in the archive, the ones
    that have a blob, are exactly the outcomes of the pipeline whose status
    is OK. *)
Theorem zipped_results_are_the_OK_outcomes (fileBuffer : ArrayBuffer)
    (pagesToExtract : option jsstring) :
  App.validResults (yielded (fst (pdfProcessor fileBuffer pagesToExtract)))
  = filter (fun r => match status r with OK => true | _ => false end)
      (yielded (fst (pdfProcessor fileBuffer pagesToExtract))).
Proof.
  unfold App.validResults. apply filter_ext_in. intros r Hin.
  destruct (yielded_inv _ _ _ Hin) as (src & index & _ & ->).
  destruct (pageResult_shape src index) as [[-> [pageBytes [-> _]]] | [-> [-> _]]];
    reflexivity.
Qed.

End AppFacts.

(* ================================================================== *)
(** ** LocalizationContext.tsx: the initial language                   *)
(* ================================================================== *)

Lemma arrayIncludes_In (l : list jsstring) (x : jsstring) :
  Localization.arrayIncludes l x = true <-> In x l.
Proof.
  unfold Localization.arrayIncludes, Localization.sameString.
  rewrite existsb_exists. split.
  - intros [y [Hin Hy]]. destruct (list_eq_dec N.eq_dec x y); [now subst | discriminate].
  - intros Hin. exists x. split; [exact Hin |].
    destruct (list_eq_dec N.eq_dec x x); [reflexivity | congruence].
Qed.

(** X20.  Whatever the local storage and the browser say, the initial
    language is one of the supported ones. *)
Theorem initial_language_supported (savedLang : option jsstring)
    (navigatorLanguage : jsstring) :
  In (Localization.getInitialLanguage savedLang navigatorLanguage)
     Localization.supportedLanguages.
Proof.
  assert (Hbrowser :
    In (let browserLang := nth 0 (split hyphen navigatorLanguage) [] in
        if Localization.arrayIncludes Localization.supportedLanguages browserLang
        then browserLang else js "en")
       Localization.supportedLanguages).
  { cbv zeta.
    destruct (Localization.arrayIncludes Localization.supportedLanguages
                (nth 0 (split hyphen navigatorLanguage) [])) eqn:Hinc.
    - now apply arrayIncludes_In.
    - left. reflexivity. }
  unfold Localization.getInitialLanguage.
  destruct savedLang as [saved |]; [| exact Hbrowser].
  destruct (negb (isEmpty saved)
            && Localization.arrayIncludes Localization.supportedLanguages saved)
    eqn:Hsaved; [| exact Hbrowser].
  apply andb_true_iff in Hsaved as [_ Hinc]. now apply arrayIncludes_In.
Qed.

(** X21.  A supported language saved in the local storage is the initial
    language, whatever the language of the browser. *)
Theorem saved_language_wins (saved navigatorLanguage : jsstring) :
  In saved Localization.supportedLanguages ->
  Localization.getInitialLanguage (Some saved) navigatorLanguage = saved.
Proof.
  intros Hin. unfold Localization.getInitialLanguage.
  assert (Hne : isEmpty saved = false).
  { destruct Hin as [<- | [<- | [<- | []]]]; reflexivity. }
  apply arrayIncludes_In in Hin. now rewrite Hne, Hin.
Qed.

Lemma saved_language_wins_witness :
  In (js "pt") Localization.supportedLanguages
  /\ Localization.getInitialLanguage (Some (js "pt")) (js "es-MX") = js "pt".
Proof.
  assert (Hin : In (js "pt") Localization.supportedLanguages)
    by (right; left; reflexivity).
  split; [exact Hin |].
  exact (saved_language_wins (js "pt") (js "es-MX") Hin).
Defined.

(** X22.  Without a supported language in the local storage, a browser
    language made of a supported code, or of a supported code followed by
    a hyphen and anything (a region), gives that code. *)
Theorem browser_region_ignored (savedLang : option jsstring)
    (code region : jsstring) :
  (forall saved, savedLang = Some saved ->
     ~ In saved Localization.supportedLanguages) ->
  In code Localization.supportedLanguages ->
  Localization.getInitialLanguage savedLang code = code
  /\ Localization.getInitialLanguage savedLang (code ++ hyphen :: region) = code.
Proof.
  intros Hsaved Hcode.
  assert (Hhead : nth 0 (split hyphen code) [] = code
                  /\ nth 0 (split hyphen (code ++ hyphen :: region)) [] = code).
  { destruct Hcode as [<- | [<- | [<- | []]]]; split; try reflexivity;
      simpl; destruct (split hyphen region); reflexivity. }
  destruct Hhead as [H1 H2].
  apply arrayIncludes_In in Hcode.
  unfold Localization.getInitialLanguage. rewrite H1, H2, Hcode.
  destruct savedLang as [saved |]; [| split; reflexivity].
  destruct (Localization.arrayIncludes Localization.supportedLanguages saved) eqn:Hinc.
  - apply arrayIncludes_In in Hinc. elim (Hsaved saved eq_refl Hinc).
  - rewrite andb_false_r. split; reflexivity.
Qed.

Lemma browser_region_ignored_witness :
  (forall saved, Some (js "fr") = Some saved ->
     ~ In saved Localization.supportedLanguages)
  /\ In (js "pt") Localization.supportedLanguages
  /\ Localization.getInitialLanguage (Some (js "fr")) (js "pt") = js "pt"
  /\ Localization.getInitialLanguage (Some (js "fr")) (js "pt-BR") = js "pt".
Proof.
  assert (Hsaved : forall saved, Some (js "fr") = Some saved ->
                     ~ In saved Localization.supportedLanguages).
  { intros saved [= <-] [H | [H | [H | []]]]; discriminate. }
  assert (Hin : In (js "pt") Localization.supportedLanguages)
    by (right; left; reflexivity).
  split; [exact Hsaved |]. split; [exact Hin |].
  exact (browser_region_ignored (Some (js "fr")) (js "pt") (js "BR") Hsaved Hin).
Defined.

Section StartFacts.

Context {pdflib : PdfLib} {binary64 : Binary64}.

(** X23.  Whenever [handleStartProcessing] gets past its guards, and the
    document loads with the page count the component holds, the pipeline
    it starts ends normally: no selection error is left for the run to
    throw.  In the mode of specific pages the run yields at least one
    outcome. *)
Theorem started_run_ends_normally (extractionMode : App.ExtractionMode)
    (pageSelectionError : option jsstring) (pageSelection : jsstring)
    (fileBuffer : ArrayBuffer) (src : PDFDocument)
    (pagesToExtract : option jsstring) :
  load fileBuffer = Some src ->
  App.startArgument extractionMode pageSelectionError pageSelection
    (getPageCount src) = Some pagesToExtract ->
  snd (pdfProcessor fileBuffer pagesToExtract) = Return tt
  /\ (extractionMode = App.SPECIFIC ->
      pagesToExtract = Some pageSelection
      /\ yielded (fst (pdfProcessor fileBuffer pagesToExtract)) <> []).
Proof.
  intros Hload. unfold App.startArgument.
  destruct extractionMode.
  - intros [= <-]. split; [| discriminate].
    now rewrite (pdfProcessor_completes fileBuffer None src
                   (indicesUpTo (getPageCount src)) Hload).
  - destruct (_ || _); [discriminate |].
    destruct (parsePageRanges pageSelection (getPageCount src))
      as [pages | e] eqn:Hparse; [| discriminate].
    intros [= <-].
    assert (Htargets : pageIndicesToProcess (getPageCount src) (Some pageSelection)
                       = Return (map (fun p => p - 1) pages)).
    { destruct pageSelection as [| c s]; [discriminate |]. simpl. now rewrite Hparse. }
    split.
    + now rewrite (pdfProcessor_completes _ _ _ _ Hload Htargets).
    + intros _. split; [reflexivity |].
      rewrite (completed_yielded _ _ _ _ Hload Htargets).
      destruct (parsePageRanges_Return_set _ _ _ Hparse)
        as (set & _ & _ & _ & _ & _ & Hne).
      destruct pages; [congruence | discriminate].
Qed.

End StartFacts.

(* ================================================================== *)
(** ** The further properties on the sample documents                  *)
(* ================================================================== *)

Lemma selection_pages_are_yielded_witness :
  @load Sample.pdflib (Some Sample.threePages) = Some Sample.threePages
  /\ parsePageRanges (js "3,1") (@getPageCount Sample.pdflib Sample.threePages)
     = Return [1; 3]
  /\ snd (Sample.run (Some Sample.threePages) (Some (js "3,1"))) = Return tt
  /\ map pageNumber (yielded (fst (Sample.run (Some Sample.threePages) (Some (js "3,1")))))
     = [1; 3].
Proof.
  split; [reflexivity |]. split; [reflexivity |].
  exact (@selection_pages_are_yielded Sample.pdflib Sample.exact
           (Some Sample.threePages) (js "3,1") Sample.threePages [1; 3]
           eq_refl eq_refl).
Defined.

Lemma progress_then_outcome_witness :
  @load Sample.pdflib (Some Sample.threePages) = Some Sample.threePages
  /\ pageIndicesToProcess (@getPageCount Sample.pdflib Sample.threePages) None
     = Return [0; 1; 2]
  /\ nth_error [0; 1; 2] 1 = Some 1
  /\ List.length (fst (Sample.run (Some Sample.threePages) None)) = 9%nat
  /\ nth_error (fst (Sample.run (Some Sample.threePages) None)) 4
     = Some (Progress {| stage := SPLITTING;
                         overallProgress := @progressAfter Sample.exact 1 3;
                         processedPages := 2;
                         totalPages := None |})
  /\ nth_error (fst (Sample.run (Some Sample.threePages) None)) 5
     = Some (Yield {| pageNumber := 2; finalSize := 0; status := ERROR;
                      blob := None |}).
Proof.
  split; [reflexivity |]. split; [reflexivity |]. split; [reflexivity |].
  exact (@progress_then_outcome Sample.pdflib Sample.exact
           (Some Sample.threePages) None Sample.threePages [0; 1; 2] 1%nat 1
           eq_refl eq_refl eq_refl).
Defined.

Lemma processedPages_counts_up_witness :
  @load Sample.pdflib (Some Sample.twoPages) = Some Sample.twoPages
  /\ pageIndicesToProcess (@getPageCount Sample.pdflib Sample.twoPages) None
     = Return [0; 1]
  /\ map processedPages (reported (fst (Sample.run (Some Sample.twoPages) None)))
     = [0; 0; 1; 2; 2]
  /\ map stage (reported (fst (Sample.run (Some Sample.twoPages) None)))
     = [ANALYZING; SPLITTING; SPLITTING; SPLITTING; DONE]
  /\ map totalPages (reported (fst (Sample.run (Some Sample.twoPages) None)))
     = [None; Some 2; None; None; None].
Proof.
  split; [reflexivity |]. split; [reflexivity |].
  exact (@processedPages_counts_up Sample.pdflib Sample.exact
           (Some Sample.twoPages) None Sample.twoPages [0; 1] eq_refl eq_refl).
Defined.

Lemma outcome_shape_witness :
  In {| pageNumber := 1; finalSize := 1; status := OK;
        blob := Some (mkBlob [Byte.x25] "application/pdf") |}
     (yielded (fst (Sample.run (Some Sample.onePage) None)))
  /\ ((OK = OK
       /\ exists pageBytes,
            Some (mkBlob [Byte.x25] "application/pdf")
            = Some (mkBlob pageBytes "application/pdf")
            /\ 1 = Z.of_nat (List.length pageBytes))
      \/ (OK = ERROR
          /\ Some (mkBlob [Byte.x25] "application/pdf") = None /\ 1 = 0)).
Proof.
  assert (Hin : In {| pageNumber := 1; finalSize := 1; status := OK;
                      blob := Some (mkBlob [Byte.x25] "application/pdf") |}
                  (yielded (fst (Sample.run (Some Sample.onePage) None))))
    by (left; reflexivity).
  split; [exact Hin |].
  exact (@outcome_shape Sample.pdflib Sample.exact (Some Sample.onePage) None _ Hin).
Defined.

Lemma blank_selection_aborts_witness :
  @load Sample.pdflib (Some Sample.twoPages) = Some Sample.twoPages
  /\ js "  " <> []
  /\ trim (js "  ") = []
  /\ Sample.run (Some Sample.twoPages) (Some (js "  "))
     = ([Progress analyzingSnapshot], Throw error_pageSelection_empty).
Proof.
  assert (Hne : js "  " <> []) by discriminate.
  split; [reflexivity |]. split; [exact Hne |]. split; [reflexivity |].
  exact (@blank_selection_aborts Sample.pdflib Sample.exact
           (Some Sample.twoPages) (js "  ") Sample.twoPages eq_refl Hne eq_refl).
Defined.

Lemma no_pages_selection_aborts_witness :
  @load Sample.pdflib (Some Sample.noPages) = Some Sample.noPages
  /\ @getPageCount Sample.pdflib Sample.noPages <= 0
  /\ js "1" <> []
  /\ exists e,
       Sample.run (Some Sample.noPages) (Some (js "1"))
       = ([Progress analyzingSnapshot], Throw e).
Proof.
  assert (Hne : js "1" <> []) by discriminate.
  assert (Hcount : @getPageCount Sample.pdflib Sample.noPages <= 0)
    by (simpl; lia).
  split; [reflexivity |]. split; [exact Hcount |]. split; [exact Hne |].
  exact (@no_pages_selection_aborts Sample.pdflib Sample.exact
           (Some Sample.noPages) (js "1") Sample.noPages eq_refl Hcount Hne).
Defined.

Lemma targets_inside_and_ascending_witness :
  @load Sample.pdflib (Some Sample.threePages) = Some Sample.threePages
  /\ pageIndicesToProcess (@getPageCount Sample.pdflib Sample.threePages)
       (Some (js "3,1-2,2")) = Return [0; 1; 2]
  /\ Forall (fun i => 0 <= i < @getPageCount Sample.pdflib Sample.threePages)
       [0; 1; 2]
  /\ StronglySorted Z.lt
       (map pageNumber
          (yielded (fst (Sample.run (Some Sample.threePages) (Some (js "3,1-2,2"))))))
  /\ Forall (fun r => 1 <= pageNumber r
                      <= @getPageCount Sample.pdflib Sample.threePages)
       (yielded (fst (Sample.run (Some Sample.threePages) (Some (js "3,1-2,2"))))).
Proof.
  split; [reflexivity |]. split; [reflexivity |].
  exact (@targets_inside_and_ascending Sample.pdflib Sample.exact
           (Some Sample.threePages) (Some (js "3,1-2,2")) Sample.threePages
           [0; 1; 2] eq_refl eq_refl).
Defined.

Lemma collected_results_are_the_outcomes_witness :
  @load Sample.pdflib (Some Sample.threePages) = Some Sample.threePages
  /\ pageIndicesToProcess (@getPageCount Sample.pdflib Sample.threePages)
       (Some (js "3,1")) = Return [0; 2]
  /\ App.collectResults
       (yielded (fst (Sample.run (Some Sample.threePages) (Some (js "3,1")))))
     = yielded (fst (Sample.run (Some Sample.threePages) (Some (js "3,1")))).
Proof.
  split; [reflexivity |]. split; [reflexivity |].
  exact (@collected_results_are_the_outcomes Sample.pdflib Sample.exact
           (Some Sample.threePages) (Some (js "3,1")) Sample.threePages [0; 2]
           eq_refl eq_refl).
Defined.

Lemma started_run_ends_normally_witness :
  @load Sample.pdflib (Some Sample.threePages) = Some Sample.threePages
  /\ App.startArgument App.SPECIFIC None (js "2-3")
       (@getPageCount Sample.pdflib Sample.threePages) = Some (Some (js "2-3"))
  /\ snd (Sample.run (Some Sample.threePages) (Some (js "2-3"))) = Return tt
  /\ (App.SPECIFIC = App.SPECIFIC ->
      Some (js "2-3") = Some (js "2-3")
      /\ yielded (fst (Sample.run (Some Sample.threePages) (Some (js "2-3")))) <> []).
Proof.
  split; [reflexivity |]. split; [reflexivity |].
  exact (@started_run_ends_normally Sample.pdflib Sample.exact App.SPECIFIC None
           (js "2-3") (Some Sample.threePages) Sample.threePages
           (Some (js "2-3")) eq_refl eq_refl).
Defined.

(* ================================================================== *)
(** ** The range parser: a range token in its selection                *)
(* ================================================================== *)

(** How [parsePageRanges] ends once the loop has reached a token: by what
    the loop body makes of that token, then by the tokens after it. *)
Lemma parsePageRanges_at_token (selection : jsstring) (totalPages : Z)
    (accepted : list jsstring) (part : jsstring) (rest : list jsstring)
    (pageNumbers : NumSet) :
  trim selection <> [] ->
  regexTest selection = true ->
  tokens selection = accepted ++ part :: rest ->
  processParts totalPages [] accepted = Return pageNumbers ->
  parsePageRanges selection totalPages
  = match processPart totalPages pageNumbers part with
    | Throw err => Throw err
    | Return pageNumbers' =>
        match processParts totalPages pageNumbers' rest with
        | Throw err => Throw err
        | Return final => Return (sort (fun a b => a - b) final)
        end
    end.
Proof.
  intros Hblank Hre Htok Hacc.
  unfold parsePageRanges. fold (tokens selection).
  rewrite (trim_nonblank_nonempty _ Hblank).
  apply isEmpty_false in Hblank. rewrite Hblank, Hre, Htok.
  cbn [orb negb]. rewrite processParts_app, Hacc. cbn [processParts].
  destruct (processPart totalPages pageNumbers part) as [set' | err] eqn:Hpart;
    [| reflexivity].
  destruct (processParts totalPages set' rest) as [final | err] eqn:Hrest;
    [| reflexivity].
  apply processPart_nonempty in Hpart as [Hne _].
  apply processParts_incl in Hrest.
  destruct set' as [| x set']; [congruence |].
  assert (Hx : In x final) by (apply Hrest; now left).
  destruct final; [contradiction | reflexivity].
Qed.

(** Up to 2^53 a natural number is its own Number value. *)
Lemma roundToDouble_exact (n : Z) : n <= 2 ^ 53 -> roundToDouble n = Num n.
Proof.
  intros Hn. destruct (Z.eq_dec n (2 ^ 53)) as [-> | Hne].
  - vm_compute. reflexivity.
  - unfold roundToDouble.
    destruct (n <? 2 ^ 53) eqn:Hlt; [reflexivity |].
    apply Z.ltb_ge in Hlt. lia.
Qed.

(** C6, as the code has it.  Take a token that contains a hyphen and that
    the loop reaches, every token before it being accepted, in a selection
    that is not blank and passes the character test, for a page count
    below 2^53.  When the token does not split into exactly two non-blank
    pieces that both parse as integers, [parsePageRanges] throws
    invalidRangeFormat; otherwise, with [start] and [end_] the two
    integers, it throws invalidRangeOrder when [start > end_]; otherwise
    outOfBounds when [start < 1] or [end_ > totalPages]; otherwise the loop
    goes on to the next token with a set that holds the pages it held
    before and every integer from [start] to [end_], both included, each
    [i++] of the counter from [start] to [end_] being exact, and when
    [parsePageRanges] returns, its result holds each of these pages. *)
Theorem range_token (selection : jsstring) (totalPages : Z)
    (accepted : list jsstring) (part : jsstring) (rest : list jsstring)
    (pageNumbers : NumSet) :
  trim selection <> [] ->
  regexTest selection = true ->
  tokens selection = accepted ++ part :: rest ->
  processParts totalPages [] accepted = Return pageNumbers ->
  includes hyphen part = true ->
  totalPages < 2 ^ 53 ->
  ((~ exists start end_, rangeOf part start end_) ->
     parsePageRanges selection totalPages
     = Throw error_pageSelection_invalidRangeFormat)
  /\ (forall start end_, rangeOf part start end_ ->
        (num_gt start end_ = true ->
           parsePageRanges selection totalPages
           = Throw error_pageSelection_invalidRangeOrder)
        /\ (num_gt start end_ = false ->
            num_lt start (Num 1) = true \/ num_gt end_ (Num totalPages) = true ->
              parsePageRanges selection totalPages
              = Throw error_pageSelection_outOfBounds)
        /\ (num_gt start end_ = false ->
            num_lt start (Num 1) = false ->
            num_gt end_ (Num totalPages) = false ->
              exists s e pageNumbers',
                start = Num s /\ end_ = Num e
                /\ processParts totalPages [] (accepted ++ [part])
                   = Return pageNumbers'
                /\ (forall p, In p pageNumbers' <-> In p pageNumbers \/ s <= p <= e)
                /\ (forall i, s <= i <= e -> roundToDouble (i + 1) = Num (i + 1))
                /\ parsePageRanges selection totalPages
                   = match processParts totalPages pageNumbers' rest with
                     | Throw err => Throw err
                     | Return final => Return (sort (fun a b => a - b) final)
                     end
                /\ forall pages,
                     parsePageRanges selection totalPages = Return pages ->
                     forall p, s <= p <= e -> In p pages)).
Proof.
  intros Hblank Hre Htok Hacc Hhyphen Hbound.
  assert (Hparse := parsePageRanges_at_token _ _ _ _ _ _ Hblank Hre Htok Hacc).
  destruct (range_branch totalPages pageNumbers part Hhyphen) as [Hformat Hrange].
  split.
  - intros Hnone. now rewrite Hparse, (Hformat Hnone).
  - intros start end_ Hr.
    destruct (Hrange start end_ Hr) as (Hord & Hoob & Hok).
    split; [| split].
    + intros H. now rewrite Hparse, (Hord H).
    + intros H1 H2. now rewrite Hparse, (Hoob H1 H2).
    + intros H1 H2 H3.
      destruct (Hok H1 H2 H3) as (s & e & set' & Hs & He & Hstep & Hmem).
      exists s, e, set'.
      split; [exact Hs |]. split; [exact He |].
      split; [rewrite processParts_app, Hacc; cbn [processParts];
              now rewrite Hstep |].
      split; [exact Hmem |].
      split.
      { intros i Hi. apply roundToDouble_exact. subst start end_.
        unfold num_gt in H3. cbn [num_lt] in H3. apply Z.ltb_ge in H3. lia. }
      rewrite Hstep in Hparse. split; [exact Hparse |].
      intros pages Hret p Hp. rewrite Hparse in Hret.
      destruct (processParts totalPages set' rest) as [final | err] eqn:Hrest;
        [| discriminate].
      injection Hret as <-.
      apply (Permutation_in _ (Permutation_sym (sort_perm final))).
      apply (processParts_incl _ _ _ _ Hrest). apply Hmem. now right.
Qed.

Lemma range_token_witness :
  trim (js "7, 3 - 5,1") <> []
  /\ regexTest (js "7, 3 - 5,1") = true
  /\ tokens (js "7, 3 - 5,1") = [js "7"] ++ js "3 - 5" :: [js "1"]
  /\ processParts 10 [] [js "7"] = Return [7]
  /\ includes hyphen (js "3 - 5") = true
  /\ 10 < 2 ^ 53
  /\ rangeOf (js "3 - 5") (Num 3) (Num 5)
  /\ exists s e pageNumbers',
       Num 3 = Num s /\ Num 5 = Num e
       /\ processParts 10 [] ([js "7"] ++ [js "3 - 5"]) = Return pageNumbers'
       /\ (forall p, In p pageNumbers' <-> In p [7] \/ s <= p <= e)
       /\ (forall i, s <= i <= e -> roundToDouble (i + 1) = Num (i + 1))
       /\ parsePageRanges (js "7, 3 - 5,1") 10
          = match processParts 10 pageNumbers' [js "1"] with
            | Throw err => Throw err
            | Return final => Return (sort (fun a b => a - b) final)
            end
       /\ forall pages,
            parsePageRanges (js "7, 3 - 5,1") 10 = Return pages ->
            forall p, s <= p <= e -> In p pages.
Proof.
  assert (Hblank : trim (js "7, 3 - 5,1") <> []) by discriminate.
  assert (Hbound : 10 < 2 ^ 53) by reflexivity.
  assert (Hrange : rangeOf (js "3 - 5") (Num 3) (Num 5)).
  { exists (js "3 "), (js " 5"). repeat split; vm_compute; discriminate. }
  split; [exact Hblank |]. split; [reflexivity |]. split; [reflexivity |].
  split; [reflexivity |]. split; [reflexivity |]. split; [exact Hbound |].
  split; [exact Hrange |].
  apply (proj2 (range_token (js "7, 3 - 5,1") 10 [js "7"] (js "3 - 5") [js "1"] [7]
                  Hblank eq_refl eq_refl eq_refl eq_refl Hbound)
           (Num 3) (Num 5) Hrange);
    reflexivity.
Defined.

(** C6, as stated, fails on a range token that the loop does not reach:
    in ["99,1-"] the token ["1-"] has a hyphen and does not split into two
    non-blank pieces, but [parsePageRanges] throws outOfBounds, the error
    of the token before it. *)
Lemma earlier_token_throws_first :
  In (js "1-") (tokens (js "99,1-"))
  /\ includes hyphen (js "1-") = true
  /\ (~ exists start end_, rangeOf (js "1-") start end_)
  /\ processPart 10 [] (js "1-") = Throw error_pageSelection_invalidRangeFormat
  /\ parsePageRanges (js "99,1-") 10 = Throw error_pageSelection_outOfBounds.
Proof.
  split; [right; left; reflexivity |]. split; [reflexivity |].
  split; [| split; reflexivity].
  intros (start & end_ & a & b & Hsplit & _ & Hb & _).
  injection Hsplit as <- <-. apply Hb. reflexivity.
Qed.
